(** * UpSession: the upstream half of the BTCAgent Stratum proxy

    A shallow embedding of [UpSession.go].  The session is a Go struct that
    every method mutates through a pointer; here it is a record threaded
    through a small state monad whose outcomes also record run-time panics
    and goroutines that block for ever.  The Go standard library calls the
    session makes ([strconv.ParseUint], [bufio.Reader], [net.Conn],
    [binary.LittleEndian.Uint16], float to int conversion) are modelled from
    their documented behaviour; the parts of the package that live in other
    files (the JSON-RPC line decoder, the request encoder, the dialer, a few
    constants) are parameters of the development. *)

From Stdlib Require Import ZArith Lia Strings.Byte DecimalString.
From Stdlib Require Import Floats.SpecFloat.
From stdpp Require Import base gmap strings list.

Set Warnings "-register-all,-notation-for-abbreviation".
Local Open Scope Z_scope.

(** ** Go values *)

(** A [float64] is an IEEE 754 binary64 datum: sign, mantissa, exponent. *)
Definition float64 : Type := spec_float.

(** What an [interface{}] holds in this file: the shapes [encoding/json]
    decodes into ([nil], [bool], [float64], [string], [[]interface{}],
    [map[string]interface{}]) and the Go [int] that [initSendRequest] puts in
    a request parameter. *)
Inductive JSONValue : Type :=
| JNull
| JBool (b : bool)
| JNumber (f : float64)
| JInt (n : Z)
| JString (s : string)
| JArray (l : list JSONValue)
| JObject (m : gmap string JSONValue).

(** Go's [error] values that can reach the session; [nil] is [None]. *)
Inductive error : Type :=
| ErrConnectionClosed
| ErrSyntax
| ErrRange
| ErrBitSize
| ErrEOF
| ErrNet (reason : string)
| ErrJSON (reason : string).

(** The status enumeration is declared outside this file; its five constants
    are the ones the session names. *)
Inductive AuthorizeStat : Type :=
| StatDisconnected
| StatConnecting
| StatConnected
| StatSubScribed
| StatAuthorized.

#[global] Instance AuthorizeStat_eq_dec : EqDecision AuthorizeStat.
Proof. solve_decision. Defined.

Record Pool : Type := { Host : string; Port : Z }.

Record Config : Type := { Pools : list Pool; SubmitResponseFromServer : bool }.

Record JSONRPCRequest : Type := {
  reqID : JSONValue;
  reqMethod : string;
  reqParams : list JSONValue }.

Record JSONRPCLine : Type := {
  ID : JSONValue;
  Method : string;
  Params : list JSONValue;
  Result : JSONValue;
  Error : JSONValue }.

(** A TCP connection as the session sees it: the peer's address, the bytes
    the peer delivers before the stream fails, the outcome of each coming
    [Write] ([None] is success; once the list is used up writes succeed), the
    lines written so far and whether [Close] was called. *)
Record Conn : Type := {
  remoteAddr : string;
  inbound : list byte;
  writeErrors : list (option error);
  written : list (list byte);
  closed : bool }.

(** The downstream session is an external collaborator: a pointer (its
    address) and the identifier the map is keyed by. *)
Module StratumSession.
Record t : Type := { addr : positive; sessionID : Z }.
End StratumSession.

Inductive Event : Type :=
| EventAddStratumSession (Session : option StratumSession.t)
| EventUnknown.

(** A channel seen from one goroutine: its capacity and what is queued. *)
Record Chan : Type := { chanCap : nat; chanBuf : list Event }.

(** ** The session struct *)

Record UpSession : Type := {
  manager : positive;
  config : option Config;
  subAccount : string;
  poolIndex : Z;
  stratumSessions : gmap Z StratumSession.t;
  serverConn : option Conn;
  serverReader : option (list byte);
  stat : AuthorizeStat;
  sessionID : Z;
  versionMask : Z;
  extraNonce2Size : Z;
  serverCapsVerRol : bool;
  serverCapsSubRes : bool;
  eventChannel : option Chan }.

Definition set_stratumSessions (v : gmap Z StratumSession.t) (up : UpSession) : UpSession :=
  {| manager := manager up; config := config up; subAccount := subAccount up;
     poolIndex := poolIndex up; stratumSessions := v;
     serverConn := serverConn up; serverReader := serverReader up; stat := stat up;
     sessionID := sessionID up; versionMask := versionMask up;
     extraNonce2Size := extraNonce2Size up;
     serverCapsVerRol := serverCapsVerRol up; serverCapsSubRes := serverCapsSubRes up;
     eventChannel := eventChannel up |}.

Definition set_serverConn (v : option Conn) (up : UpSession) : UpSession :=
  {| manager := manager up; config := config up; subAccount := subAccount up;
     poolIndex := poolIndex up; stratumSessions := stratumSessions up;
     serverConn := v; serverReader := serverReader up; stat := stat up;
     sessionID := sessionID up; versionMask := versionMask up;
     extraNonce2Size := extraNonce2Size up;
     serverCapsVerRol := serverCapsVerRol up; serverCapsSubRes := serverCapsSubRes up;
     eventChannel := eventChannel up |}.

Definition set_serverReader (v : option (list byte)) (up : UpSession) : UpSession :=
  {| manager := manager up; config := config up; subAccount := subAccount up;
     poolIndex := poolIndex up; stratumSessions := stratumSessions up;
     serverConn := serverConn up; serverReader := v; stat := stat up;
     sessionID := sessionID up; versionMask := versionMask up;
     extraNonce2Size := extraNonce2Size up;
     serverCapsVerRol := serverCapsVerRol up; serverCapsSubRes := serverCapsSubRes up;
     eventChannel := eventChannel up |}.

Definition set_stat (v : AuthorizeStat) (up : UpSession) : UpSession :=
  {| manager := manager up; config := config up; subAccount := subAccount up;
     poolIndex := poolIndex up; stratumSessions := stratumSessions up;
     serverConn := serverConn up; serverReader := serverReader up; stat := v;
     sessionID := sessionID up; versionMask := versionMask up;
     extraNonce2Size := extraNonce2Size up;
     serverCapsVerRol := serverCapsVerRol up; serverCapsSubRes := serverCapsSubRes up;
     eventChannel := eventChannel up |}.

Definition set_sessionID (v : Z) (up : UpSession) : UpSession :=
  {| manager := manager up; config := config up; subAccount := subAccount up;
     poolIndex := poolIndex up; stratumSessions := stratumSessions up;
     serverConn := serverConn up; serverReader := serverReader up; stat := stat up;
     sessionID := v; versionMask := versionMask up;
     extraNonce2Size := extraNonce2Size up;
     serverCapsVerRol := serverCapsVerRol up; serverCapsSubRes := serverCapsSubRes up;
     eventChannel := eventChannel up |}.

Definition set_versionMask (v : Z) (up : UpSession) : UpSession :=
  {| manager := manager up; config := config up; subAccount := subAccount up;
     poolIndex := poolIndex up; stratumSessions := stratumSessions up;
     serverConn := serverConn up; serverReader := serverReader up; stat := stat up;
     sessionID := sessionID up; versionMask := v;
     extraNonce2Size := extraNonce2Size up;
     serverCapsVerRol := serverCapsVerRol up; serverCapsSubRes := serverCapsSubRes up;
     eventChannel := eventChannel up |}.

Definition set_extraNonce2Size (v : Z) (up : UpSession) : UpSession :=
  {| manager := manager up; config := config up; subAccount := subAccount up;
     poolIndex := poolIndex up; stratumSessions := stratumSessions up;
     serverConn := serverConn up; serverReader := serverReader up; stat := stat up;
     sessionID := sessionID up; versionMask := versionMask up;
     extraNonce2Size := v;
     serverCapsVerRol := serverCapsVerRol up; serverCapsSubRes := serverCapsSubRes up;
     eventChannel := eventChannel up |}.

Definition set_serverCapsVerRol (v : bool) (up : UpSession) : UpSession :=
  {| manager := manager up; config := config up; subAccount := subAccount up;
     poolIndex := poolIndex up; stratumSessions := stratumSessions up;
     serverConn := serverConn up; serverReader := serverReader up; stat := stat up;
     sessionID := sessionID up; versionMask := versionMask up;
     extraNonce2Size := extraNonce2Size up;
     serverCapsVerRol := v; serverCapsSubRes := serverCapsSubRes up;
     eventChannel := eventChannel up |}.

Definition set_serverCapsSubRes (v : bool) (up : UpSession) : UpSession :=
  {| manager := manager up; config := config up; subAccount := subAccount up;
     poolIndex := poolIndex up; stratumSessions := stratumSessions up;
     serverConn := serverConn up; serverReader := serverReader up; stat := stat up;
     sessionID := sessionID up; versionMask := versionMask up;
     extraNonce2Size := extraNonce2Size up;
     serverCapsVerRol := serverCapsVerRol up; serverCapsSubRes := v;
     eventChannel := eventChannel up |}.

Definition set_eventChannel (v : option Chan) (up : UpSession) : UpSession :=
  {| manager := manager up; config := config up; subAccount := subAccount up;
     poolIndex := poolIndex up; stratumSessions := stratumSessions up;
     serverConn := serverConn up; serverReader := serverReader up; stat := stat up;
     sessionID := sessionID up; versionMask := versionMask up;
     extraNonce2Size := extraNonce2Size up;
     serverCapsVerRol := serverCapsVerRol up; serverCapsSubRes := serverCapsSubRes up;
     eventChannel := v |}.

(** ** The monad of session methods

    A method call either returns ([Done]) with a value and the session as it
    left it, panics ([Panic], a nil dereference or an index out of range),
    blocks its goroutine for ever ([Blocked]), or, for the bounded unrolling
    of a loop, runs out of unrolling steps ([OutOfFuel]).  The session is
    kept in every case: the writes made before a panic stay made. *)

Inductive Outcome (A : Type) : Type :=
| Done (a : A) (up : UpSession)
| Panic (up : UpSession)
| Blocked (up : UpSession)
| OutOfFuel (up : UpSession).

Arguments Done {A} a up.
Arguments Panic {A} up.
Arguments Blocked {A} up.
Arguments OutOfFuel {A} up.

Definition M (A : Type) : Type := UpSession -> Outcome A.

Definition ret {A : Type} (a : A) : M A := fun up => Done a up.

Definition bind {A B : Type} (m : M A) (k : A -> M B) : M B :=
  fun up =>
    match m up with
    | Done a up' => k a up'
    | Panic up' => Panic up'
    | Blocked up' => Blocked up'
    | OutOfFuel up' => OutOfFuel up'
    end.

Definition get : M UpSession := fun up => Done up up.

Definition modify (f : UpSession -> UpSession) : M unit := fun up => Done tt (f up).

Definition panic {A : Type} : M A := fun up => Panic up.

Definition block {A : Type} : M A := fun up => Blocked up.

Notation "'let*' x ':=' m 'in' k" := (bind m (fun x => k))
  (at level 10, x name, m at level 100, k at level 200).
Notation "'let*' ' p ':=' m 'in' k" := (bind m (fun x => match x with p => k end))
  (at level 10, p pattern, m at level 100, k at level 200).
Notation "m ';;;' k" := (bind m (fun _ => k))
  (at level 100, k at level 200, right associativity).

(** The session the outcome leaves behind. *)
Definition session_of {A : Type} (o : Outcome A) : UpSession :=
  match o with
  | Done _ up | Panic up | Blocked up | OutOfFuel up => up
  end.

Definition is_Done {A : Type} (o : Outcome A) : bool :=
  match o with Done _ _ => true | _ => false end.

(** ** The Go standard library, as far as the session uses it *)

Module strconv.

Definition maxUint64 : Z := 2 ^ 64 - 1.

(** [lower(c)]: [c | ('x' - 'X')]. *)
Definition lower (c : Z) : Z := Z.lor c 32.

(** One turn of the digit loop of [ParseUint] at base 16: [n] is the value
    accumulated so far, [c] the next byte.  [inl] carries on, [inr] is the
    pair the function returns at once. *)
Definition digit16 (maxVal n c : Z) : Z + (Z * option error) :=
  let cutoff := maxUint64 / 16 + 1 in
  let step (d : Z) : Z + (Z * option error) :=
    if 16 <=? d then inr (0, Some ErrSyntax)
    else if cutoff <=? n then inr (maxVal, Some ErrRange)
    else
      let n := (n * 16) mod 2 ^ 64 in
      let n1 := (n + d) mod 2 ^ 64 in
      if (n1 <? n) || (maxVal <? n1) then inr (maxVal, Some ErrRange)
      else inl n1 in
  if (48 <=? c) && (c <=? 57) then step (c - 48)
  else if (97 <=? lower c) && (lower c <=? 122) then step (lower c - 97 + 10)
  else inr (0, Some ErrSyntax).

Fixpoint digits16 (maxVal n : Z) (s : string) : Z * option error :=
  match s with
  | EmptyString => (n, None)
  | String c s' =>
      match digit16 maxVal n (Z.of_N (Ascii.N_of_ascii c)) with
      | inl n1 => digits16 maxVal n1 s'
      | inr r => r
      end
  end.

(** [strconv.ParseUint(s, 16, bitSize)]: the library function at the base
    the session passes.  With an explicit base no prefix and no underscore
    is accepted, so those branches of the library do not appear. *)
Definition ParseUint16 (s : string) (bitSize : Z) : Z * option error :=
  match s with
  | EmptyString => (0, Some ErrSyntax)
  | _ =>
      let bitSize' := if bitSize =? 0 then 64 else bitSize in
      if (bitSize' <? 0) || (64 <? bitSize') then (0, Some ErrBitSize)
      else digits16 (2 ^ bitSize' - 1) 0 s
  end.

End strconv.

(** [uint32(x)] on an unsigned 64-bit value. *)
Definition uint32 (x : Z) : Z := x mod 2 ^ 32.

(** The integer part of a float, rounded toward zero; [None] for an infinity
    or a NaN. *)
Definition float64_trunc (f : float64) : option Z :=
  match f with
  | S754_zero _ => Some 0
  | S754_finite sign m e =>
      let a := Z.shiftl (Z.pos m) e in
      Some (if sign then - a else a)
  | S754_infinity _ => None
  | S754_nan => None
  end.

(** [binary.LittleEndian.Uint16(b)]: the bounds check [_ = b[1]] panics on a
    slice shorter than two bytes. *)
Definition Uint16 (b : list byte) : option Z :=
  match b with
  | b0 :: b1 :: _ =>
      Some (Z.lor (Z.of_N (Byte.to_N b0)) (Z.shiftl (Z.of_N (Byte.to_N b1)) 8))
  | _ => None
  end.

(** [b[n:]]: panics when [n] is beyond the length. *)
Definition slice_from {A : Type} (n : nat) (b : list A) : option (list A) :=
  if (n <=? length b)%nat then Some (drop n b) else None.

(** [fmt.Sprintf("%s:%d", host, port)]. *)
Definition Sprintf_host_port (host : string) (port : Z) : string :=
  host +:+ ":" +:+ NilZero.string_of_int (Z.to_int port).

Module bufio.

(** A reader is the sequence of bytes it still delivers; past its end every
    read fails. *)

(** [Peek(1)]. *)
Definition Peek1 (r : list byte) : list byte * option error :=
  match r with
  | [] => ([], Some ErrEOF)
  | b :: _ => ([b], None)
  end.

(** [ReadBytes(delim)]: the bytes up to and including the first [delim];
    when the stream ends first, what was read and the error. *)
Fixpoint ReadBytes (delim : byte) (r : list byte) : (list byte * option error) * list byte :=
  match r with
  | [] => (([], Some ErrEOF), [])
  | b :: r' =>
      if Byte.eqb b delim then (([b], None), r')
      else
        let '((line, err), rest) := ReadBytes delim r' in
        ((b :: line, err), rest)
  end.

(** [Discard(n)]: skips [n] bytes, fewer with an error when the stream ends. *)
Definition Discard (n : Z) (r : list byte) : (Z * option error) * list byte :=
  if n <? 0 then ((0, Some (ErrNet "negative count")), r)
  else if (Z.to_nat n <=? length r)%nat then ((n, None), drop (Z.to_nat n) r)
  else ((Z.of_nat (length r), Some ErrEOF), []).

End bufio.

(** [c.Write(b)] on a connection. *)
Definition Conn_Write (b : list byte) (c : Conn) : (Z * option error) * Conn :=
  if closed c then ((0, Some (ErrNet "use of closed network connection")), c)
  else
    match writeErrors c with
    | Some e :: rest =>
        ((0, Some e),
         {| remoteAddr := remoteAddr c; inbound := inbound c; writeErrors := rest;
            written := written c; closed := closed c |})
    | None :: rest =>
        ((Z.of_nat (length b), None),
         {| remoteAddr := remoteAddr c; inbound := inbound c; writeErrors := rest;
            written := written c ++ [b]; closed := closed c |})
    | [] =>
        ((Z.of_nat (length b), None),
         {| remoteAddr := remoteAddr c; inbound := inbound c; writeErrors := [];
            written := written c ++ [b]; closed := closed c |})
    end.

(** [c.Close()]. *)
Definition Conn_Close (c : Conn) : Conn :=
  {| remoteAddr := remoteAddr c; inbound := inbound c; writeErrors := writeErrors c;
     written := written c; closed := true |}.

(** ** The session's methods *)

Definition NewUpSession (manager : positive) (config : option Config)
    (subAccount : string) (poolIndex : Z) : UpSession :=
  {| manager := manager; config := config; subAccount := subAccount;
     poolIndex := poolIndex; stratumSessions := ∅;
     serverConn := None; serverReader := None; stat := StatDisconnected;
     sessionID := 0; versionMask := 0; extraNonce2Size := 0;
     serverCapsVerRol := false; serverCapsSubRes := false;
     eventChannel := None |}.

(** [for _, x := range l { body }]. *)
Fixpoint range {A : Type} (l : list A) (body : A -> M unit) : M unit :=
  match l with
  | [] => ret tt
  | x :: l' => body x ;;; range l' body
  end.

(** [up.config], dereferenced. *)
Definition deref_config : M Config :=
  fun up => match config up with
            | Some cfg => Done cfg up
            | None => Panic up
            end.

(** [up.config.Pools[up.poolIndex]]. *)
Definition config_pool : M Pool :=
  let* cfg := deref_config in
  let* up := get in
  if poolIndex up <? 0 then panic
  else match Pools cfg !! Z.to_nat (poolIndex up) with
       | Some pool => ret pool
       | None => panic
       end.

(** The three reads on [up.serverReader]; a nil reader panics. *)
Definition serverReader_Peek1 : M (list byte * option error) :=
  fun up => match serverReader up with
            | Some r => Done (bufio.Peek1 r) up
            | None => Panic up
            end.

Definition serverReader_ReadBytes (delim : byte) : M (list byte * option error) :=
  fun up => match serverReader up with
            | Some r =>
                let '(res, r') := bufio.ReadBytes delim r in
                Done res (set_serverReader (Some r') up)
            | None => Panic up
            end.

Definition serverReader_Discard (n : Z) : M (Z * option error) :=
  fun up => match serverReader up with
            | Some r =>
                let '(res, r') := bufio.Discard n r in
                Done res (set_serverReader (Some r') up)
            | None => Panic up
            end.

(** [up.serverConn.Write(bytes)] and [up.serverConn.Close()]; a nil
    connection panics. *)
Definition serverConn_Write (bytes : list byte) : M (Z * option error) :=
  fun up => match serverConn up with
            | Some c =>
                let '(res, c') := Conn_Write bytes c in
                Done res (set_serverConn (Some c') up)
            | None => Panic up
            end.

Definition serverConn_Close : M unit :=
  fun up => match serverConn up with
            | Some c => Done tt (set_serverConn (Some (Conn_Close c)) up)
            | None => Panic up
            end.

Definition SetParam (params : list JSONValue) (request : JSONRPCRequest) : JSONRPCRequest :=
  {| reqID := reqID request; reqMethod := reqMethod request; reqParams := params |}.

Definition loopCond (s : AuthorizeStat) : bool :=
  negb (bool_decide (s = StatAuthorized))
  && negb (bool_decide (s = StatDisconnected))
  && negb (bool_decide (s = StatConnecting)).

(** ** A sample environment

    Concrete stand-ins for what the session takes from outside, used to run
    the methods on explicit inputs: the magic byte the comment in
    [initReadExMessage] gives, a one-pool configuration, a dialer that hands
    out a given connection, an encoder that writes the method name, and a
    decoder that knows a handful of lines (written without quotation marks)
    and rejects every other one. *)
Module Sample.

Definition magic : byte := x7f.

Definition userAgent : string := "btccom-agent/sample".

Definition pool : Pool := {| Host := "pool.example.org"; Port := 3333 |}.

Definition cfg : Config := {| Pools := [pool]; SubmitResponseFromServer := true |}.

Definition conn (inb : list byte) (werrs : list (option error)) : Conn :=
  {| remoteAddr := "203.0.113.7:3333"; inbound := inb; writeErrors := werrs;
     written := []; closed := false |}.

Definition dial (c : Conn) : string -> Conn + error := fun _ => inl c.

Definition dial_refused : string -> Conn + error :=
  fun _ => inr (ErrNet "connection refused").

Definition encode (req : JSONRPCRequest) : list byte * option error :=
  (String.list_byte_of_string (reqMethod req) ++ [x0a], None).

Definition response (id : string) (result : JSONValue) : JSONRPCLine :=
  {| ID := JString id; Method := ""; Params := []; Result := result; Error := JNull |}.

(** 8 as a binary64: mantissa 2^52, exponent -49. *)
Definition eight : float64 := S754_finite false 4503599627370496 (-49).

(** 4 as a binary64. *)
Definition four : float64 := S754_finite false 4503599627370496 (-50).

Definition sub8 : JSONRPCLine :=
  response "sub" (JArray [JArray []; JString "1a2b3c4d"; JNumber eight]).

Definition sub4 : JSONRPCLine :=
  response "sub" (JArray [JArray []; JString "1a2b3c4d"; JNumber four]).

Definition caps_both : JSONRPCLine :=
  response "caps"
    (JObject (<["capabilities" := JArray [JString "verrol"; JString "subres"]]> ∅)).

Definition auth_true : JSONRPCLine := response "auth" (JBool true).

Definition lines : list (string * JSONRPCLine) :=
  [ ("{id:sub,result:[[],1a2b3c4d,8]}", sub8);
    ("{id:sub,result:[[],1a2b3c4d,4]}", sub4);
    ("{id:conf,result:{}}", response "conf" (JObject ∅));
    ("{id:caps,result:{capabilities:[verrol,subres]}}", caps_both);
    ("{id:auth,result:true}", auth_true);
    ("{id:auth,result:false}", response "auth" (JBool false)) ].

Fixpoint find_line (table : list (string * JSONRPCLine)) (s : string) : JSONRPCLine + error :=
  match table with
  | [] => inr (ErrJSON "invalid character")
  | (k, v) :: table' =>
      if String.eqb s (k +:+ String (Ascii.ascii_of_byte x0a) EmptyString) then inl v
      else find_line table' s
  end.

Definition decode (b : list byte) : JSONRPCLine + error :=
  find_line lines (String.string_of_list_byte b).

Definition unrepresentable (f : float64) : Z := - 2 ^ 63.

(** A line of text as it comes off the wire. *)
Definition line (s : string) : list byte := String.list_byte_of_string s ++ [x0a].

(** A session just made, and one whose connection is up with [inb] unread. *)
Definition fresh : UpSession := NewUpSession 1%positive (Some cfg) "alice" 0.

Definition connected (inb : list byte) : UpSession :=
  set_stat StatConnected
    (set_serverReader (Some inb) (set_serverConn (Some (conn inb [])) fresh)).

(** More sample data: a decoder that reads every line as a given message,
    two pool requests, two downstream sessions and a channel. *)
Definition decode_as (rpcData : JSONRPCLine) : list byte -> JSONRPCLine + error :=
  fun _ => inl rpcData.

Definition set_version_mask : JSONRPCLine :=
  {| ID := JNull; Method := "mining.set_version_mask";
     Params := [JString "1fffe000"]; Result := JNull; Error := JNull |}.

(** A notify that carries the identifier of the authorize request. *)
Definition notify : JSONRPCLine :=
  {| ID := JString "auth"; Method := "mining.notify";
     Params := []; Result := JBool true; Error := JNull |}.

Definition miner1 : StratumSession.t :=
  {| StratumSession.addr := 1%positive; StratumSession.sessionID := 7 |}.

Definition miner2 : StratumSession.t :=
  {| StratumSession.addr := 2%positive; StratumSession.sessionID := 9 |}.

Definition with_events (events : list Event) : UpSession :=
  set_eventChannel (Some {| chanCap := 8; chanBuf := events |}) fresh.

Definition handshake_stream : list byte :=
  line "{id:sub,result:[[],1a2b3c4d,8]}"
  ++ line "{id:caps,result:{capabilities:[verrol,subres]}}"
  ++ line "{id:auth,result:true}"
  ++ line "{id:1,method:mining.notify}".

End Sample.

Section Session.

(** What the file takes from the rest of the package and from the world:
    the magic byte of an Ex-Message, the user agent string, the dialer
    ([net.DialTimeout("tcp", url, UpSessionDialTimeout)]), the request
    encoder, the line decoder, and the value a conversion [int(f)] yields
    when [f] has no [int] counterpart (Go leaves it to the implementation). *)
Variable ExMessageMagicNumber : byte.
Variable UpSessionUserAgent : string.
Variable DialTimeout : string -> Conn + error.
Variable ToJSONBytesLine : JSONRPCRequest -> list byte * option error.
Variable NewJSONRPCLine : list byte -> JSONRPCLine + error.
Variable int_unrepresentable : float64 -> Z.

(** [int(f)], with [int] 64 bits wide. *)
Definition int_of_float64 (f : float64) : Z :=
  match float64_trunc f with
  | Some z => if (- 2 ^ 63 <=? z) && (z <? 2 ^ 63) then z else int_unrepresentable f
  | None => int_unrepresentable f
  end.

Definition connect : M (option error) :=
  modify (set_stat StatConnecting) ;;;
  let* pool := config_pool in
  let url := Sprintf_host_port (Host pool) (Port pool) in
  match DialTimeout url with
  | inr err =>
      modify (set_serverConn None) ;;;
      modify (set_stat StatDisconnected) ;;;
      ret (Some err)
  | inl c =>
      modify (set_serverConn (Some c)) ;;;
      modify (set_serverReader (Some (inbound c))) ;;;
      modify (set_stat StatConnected) ;;;
      ret None
  end.

Definition writeJSONRequestToServer (jsonData : JSONRPCRequest) : M (Z * option error) :=
  let* up := get in
  if bool_decide (stat up = StatConnecting) || bool_decide (stat up = StatDisconnected)
  then ret (0, Some ErrConnectionClosed)
  else
    let '(bytes, err) := ToJSONBytesLine jsonData in
    match err with
    | Some e => ret (0, Some e)
    | None => serverConn_Write bytes
    end.

(** The named result [err] is nil on entry and no statement assigns it: each
    call's two results are dropped. *)
Definition initSendRequest : M (option error) :=
  let err : option error := None in
  let request := {| reqID := JNull; reqMethod := ""; reqParams := [] |} in
  let request :=
    SetParam [JString UpSessionUserAgent]
      {| reqID := JString "sub"; reqMethod := "mining.subscribe";
         reqParams := reqParams request |} in
  let* _ := writeJSONRequestToServer request in
  if bool_decide (err ≠ None) then ret err
  else
  let request :=
    SetParam [JArray [JString "version-rolling"];
              JObject (<["version-rolling.mask" := JString "ffffffff"]>
                         (<["version-rolling.min-bit-count" := JInt 0]> ∅))]
      {| reqID := JString "conf"; reqMethod := "mining.configure";
         reqParams := reqParams request |} in
  let* _ := writeJSONRequestToServer request in
  if bool_decide (err ≠ None) then ret err
  else
  let request :=
    SetParam [JArray [JString "verrol"]]
      {| reqID := JString "caps"; reqMethod := "agent.get_capabilities";
         reqParams := reqParams request |} in
  let* _ := writeJSONRequestToServer request in
  if bool_decide (err ≠ None) then ret err
  else
  let* up := get in
  let request :=
    SetParam [JString (subAccount up); JString ""]
      {| reqID := JString "auth"; reqMethod := "mining.authorize";
         reqParams := reqParams request |} in
  let* _ := writeJSONRequestToServer request in
  if bool_decide (err ≠ None) then ret err
  else ret err.

Definition close : M unit :=
  modify (set_stat StatDisconnected) ;;;
  serverConn_Close.

Definition IP : M string :=
  let* up := get in
  match serverConn up with
  | None =>
      let* pool := config_pool in
      ret (Sprintf_host_port (Host pool) (Port pool))
  | Some c => ret (remoteAddr c)
  end.

(** A [glog] call whose arguments include [up.IP()]: the log itself is not
    modelled, the evaluation of its arguments is. *)
Definition glog_IP : M unit := let* _ := IP in ret tt.

Definition handleSetVersionMask (rpcData : JSONRPCLine) (jsonBytes : list byte) : M unit :=
  if (0 <? length (Params rpcData))%nat then
    match Params rpcData !! 0%nat with
    | None => panic
    | Some (JString versionMaskHex) =>
        let '(versionMask, err) := strconv.ParseUint16 versionMaskHex 32 in
        match err with
        | Some _ => glog_IP
        | None =>
            modify (set_versionMask (uint32 versionMask)) ;;;
            glog_IP
        end
    | Some _ => glog_IP
    end
  else ret tt.

Definition handleSubScribeResponse (rpcData : JSONRPCLine) (jsonBytes : list byte) : M unit :=
  match Result rpcData with
  | JArray result =>
      if (length result <? 3)%nat then glog_IP ;;; close
      else
        match result !! 1%nat with
        | None => panic
        | Some (JString sessionIDHex) =>
            let '(sessionID, err) := strconv.ParseUint16 sessionIDHex 32 in
            match err with
            | Some _ => glog_IP ;;; close
            | None =>
                modify (set_sessionID (uint32 sessionID)) ;;;
                match result !! 2%nat with
                | None => panic
                | Some (JNumber extraNonce2SizeFloat) =>
                    modify (set_extraNonce2Size (int_of_float64 extraNonce2SizeFloat)) ;;;
                    let* up := get in
                    if extraNonce2Size up <? 6 then glog_IP ;;; close
                    else modify (set_stat StatSubScribed)
                | Some _ => glog_IP ;;; close
                end
            end
        | Some _ => glog_IP ;;; close
        end
  | _ => glog_IP ;;; close
  end.

Definition handleConfigureResponse (rpcData : JSONRPCLine) (jsonBytes : list byte) : M unit :=
  ret tt.

(** The three type tests do not return: after a failed one the next runs on
    the zero value (a nil map, a nil interface, a nil slice). *)
Definition handleGetCapsResponse (rpcData : JSONRPCLine) (jsonBytes : list byte) : M unit :=
  let '(result, ok) :=
    match Result rpcData with
    | JObject m => (m, true)
    | _ => (∅, false)
    end in
  (if negb ok then glog_IP else ret tt) ;;;
  let '(caps, ok) :=
    match result !! "capabilities" with
    | Some v => (v, true)
    | None => (JNull, false)
    end in
  (if negb ok then glog_IP else ret tt) ;;;
  let '(capsArr, ok) :=
    match caps with
    | JArray l => (l, true)
    | _ => ([], false)
    end in
  (if negb ok then glog_IP else ret tt) ;;;
  range capsArr (fun capability =>
    match capability with
    | JString s =>
        if String.eqb s "verrol" then modify (set_serverCapsVerRol true)
        else if String.eqb s "subres" then modify (set_serverCapsSubRes true)
        else ret tt
    | _ => ret tt
    end) ;;;
  let* up := get in
  (if negb (serverCapsVerRol up) then glog_IP else ret tt) ;;;
  let* cfg := deref_config in
  let* up := get in
  if SubmitResponseFromServer cfg && negb (serverCapsSubRes up) then ret tt else ret tt.

Definition handleAuthorizeResponse (rpcData : JSONRPCLine) (jsonBytes : list byte) : M unit :=
  let '(result, ok) :=
    match Result rpcData with
    | JBool b => (b, true)
    | _ => (false, false)
    end in
  if negb ok || negb result then glog_IP ;;; close
  else
    glog_IP ;;;
    modify (set_stat StatAuthorized).

Definition initReadExMessage : M unit :=
  let* '(header, err) := serverReader_ReadBytes x04 in
  match err with
  | Some _ => glog_IP ;;; close
  | None =>
      match slice_from 2 header with
      | None => panic
      | Some header2 =>
          match Uint16 header2 with
          | None => panic
          | Some len =>
              if len <? 4 then glog_IP ;;; close
              else
                let len := (len - 4) mod 2 ^ 16 in
                if 0 <? len then
                  let* '(_, err) := serverReader_Discard len in
                  match err with
                  | Some _ => glog_IP ;;; close
                  | None => ret tt
                  end
                else ret tt
          end
      end
  end.

Definition initReadLine : M unit :=
  let* '(jsonBytes, err) := serverReader_ReadBytes x0a in
  match err with
  | Some _ => glog_IP ;;; close
  | None =>
      match NewJSONRPCLine jsonBytes with
      | inr _ => glog_IP
      | inl rpcData =>
          if (0 <? String.length (Method rpcData))%nat then
            if String.eqb (Method rpcData) "mining.set_version_mask"
            then handleSetVersionMask rpcData jsonBytes
            else if String.eqb (Method rpcData) "mining.set_difficulty" then ret tt
            else if String.eqb (Method rpcData) "mining.notify" then ret tt
            else ret tt
          else
            match ID rpcData with
            | JString id =>
                if String.eqb id "sub" then handleSubScribeResponse rpcData jsonBytes
                else if String.eqb id "conf" then handleConfigureResponse rpcData jsonBytes
                else if String.eqb id "caps" then handleGetCapsResponse rpcData jsonBytes
                else if String.eqb id "auth" then handleAuthorizeResponse rpcData jsonBytes
                else ret tt
            | _ => ret tt
            end
      end
  end.

Definition initHandleResponse : M unit :=
  let* '(magicNum, err) := serverReader_Peek1 in
  match err with
  | Some _ => glog_IP ;;; close
  | None =>
      match magicNum !! 0%nat with
      | None => panic
      | Some b =>
          if Byte.eqb b ExMessageMagicNumber then initReadExMessage
          else initReadLine
      end
  end.

(** The [for] loop of [Init], unrolled at most [fuel] times. *)
Fixpoint initLoop (fuel : nat) : M unit :=
  fun up =>
    if loopCond (stat up) then
      match fuel with
      | O => OutOfFuel up
      | S fuel' => (initHandleResponse ;;; initLoop fuel') up
      end
    else Done tt up.

(** Every turn of the loop that goes on reads at least one byte, so one
    more turn than there are unread bytes is enough (see [initLoop_enough]). *)
Definition unread (up : UpSession) : nat :=
  match serverReader up with
  | Some r => length r
  | None => O
  end.

Definition initResponses : M unit :=
  fun up => initLoop (S (unread up)) up.

Definition Init : M unit :=
  let* err := connect in
  match err with
  | Some _ => glog_IP
  | None =>
      let* err := initSendRequest in
      match err with
      | Some _ => glog_IP ;;; close
      | None => initResponses
      end
  end.

(** [up.eventChannel <- event]: a send on a nil channel blocks for ever; on
    a channel it queues the event when there is room and otherwise waits
    for a receiver, which this goroutine alone never sees arrive. *)
Definition SendEvent (event : Event) : M unit :=
  fun up =>
    match eventChannel up with
    | None => Blocked up
    | Some ch =>
        if (length (chanBuf ch) <? chanCap ch)%nat
        then Done tt (set_eventChannel
                        (Some {| chanCap := chanCap ch; chanBuf := chanBuf ch ++ [event] |}) up)
        else Blocked up
    end.

Definition AddStratumSession (session : option StratumSession.t) : M unit :=
  SendEvent (EventAddStratumSession session).

(** [e.Session.SetUpSession(up)] acts on the downstream session only. *)
Definition addStratumSession (e : option StratumSession.t) : M unit :=
  match e with
  | None => panic
  | Some session =>
      let* up := get in
      modify (set_stratumSessions
                (<[StratumSession.sessionID session := session]> (stratumSessions up)))
  end.

(** The receive loop on a channel holding [buf]: each queued event is taken
    and handled in turn, then the receive waits for ever. *)
Fixpoint handleEvents (cap : nat) (buf : list Event) : M unit :=
  match buf with
  | [] => block
  | event :: buf' =>
      modify (set_eventChannel (Some {| chanCap := cap; chanBuf := buf' |})) ;;;
      match event with
      | EventAddStratumSession e => addStratumSession e
      | EventUnknown => ret tt
      end ;;;
      handleEvents cap buf'
  end.

Definition handleEvent : M unit :=
  fun up =>
    match eventChannel up with
    | None => Blocked up
    | Some ch => handleEvents (chanCap ch) (chanBuf ch) up
    end.

Definition Run : M unit := handleEvent.

(** ** Operations, for statements about every method at once *)

Inductive Op : Type :=
| OpConnect
| OpWriteJSONRequestToServer (jsonData : JSONRPCRequest)
| OpInitSendRequest
| OpClose
| OpIP
| OpInitHandleResponse
| OpInitReadExMessage
| OpInitReadLine
| OpInit
| OpHandleSetVersionMask (rpcData : JSONRPCLine) (jsonBytes : list byte)
| OpHandleSubScribeResponse (rpcData : JSONRPCLine) (jsonBytes : list byte)
| OpHandleConfigureResponse (rpcData : JSONRPCLine) (jsonBytes : list byte)
| OpHandleGetCapsResponse (rpcData : JSONRPCLine) (jsonBytes : list byte)
| OpHandleAuthorizeResponse (rpcData : JSONRPCLine) (jsonBytes : list byte)
| OpRun
| OpSendEvent (event : Event)
| OpAddStratumSession (session : option StratumSession.t)
| OpaddStratumSession (e : option StratumSession.t)
| OpHandleEvent.

(** The session a method call leaves behind, whatever its outcome. *)
Definition run_op (o : Op) (up : UpSession) : UpSession :=
  match o with
  | OpConnect => session_of (connect up)
  | OpWriteJSONRequestToServer jsonData => session_of (writeJSONRequestToServer jsonData up)
  | OpInitSendRequest => session_of (initSendRequest up)
  | OpClose => session_of (close up)
  | OpIP => session_of (IP up)
  | OpInitHandleResponse => session_of (initHandleResponse up)
  | OpInitReadExMessage => session_of (initReadExMessage up)
  | OpInitReadLine => session_of (initReadLine up)
  | OpInit => session_of (Init up)
  | OpHandleSetVersionMask rpcData jsonBytes =>
      session_of (handleSetVersionMask rpcData jsonBytes up)
  | OpHandleSubScribeResponse rpcData jsonBytes =>
      session_of (handleSubScribeResponse rpcData jsonBytes up)
  | OpHandleConfigureResponse rpcData jsonBytes =>
      session_of (handleConfigureResponse rpcData jsonBytes up)
  | OpHandleGetCapsResponse rpcData jsonBytes =>
      session_of (handleGetCapsResponse rpcData jsonBytes up)
  | OpHandleAuthorizeResponse rpcData jsonBytes =>
      session_of (handleAuthorizeResponse rpcData jsonBytes up)
  | OpRun => session_of (Run up)
  | OpSendEvent event => session_of (SendEvent event up)
  | OpAddStratumSession session => session_of (AddStratumSession session up)
  | OpaddStratumSession e => session_of (addStratumSession e up)
  | OpHandleEvent => session_of (handleEvent up)
  end.

Definition run_ops (ops : list Op) (up : UpSession) : UpSession :=
  fold_left (fun up o => run_op o up) ops up.

(** "Once status is Disconnected it is never left", over every operation. *)
Definition Disconnected_is_never_left : Prop :=
  forall (o : Op) (up : UpSession),
    stat up = StatDisconnected -> stat (run_op o up) = StatDisconnected.

(** The capabilities array of a well-shaped capabilities result. *)
Definition capabilities_of (result : JSONValue) : option (list JSONValue) :=
  match result with
  | JObject m =>
      match m !! "capabilities" with
      | Some (JArray l) => Some l
      | _ => None
      end
  | _ => None
  end.

(** What one turn of the capabilities loop does to the session. *)
Definition note_capability (capability : JSONValue) (up : UpSession) : UpSession :=
  match capability with
  | JString s =>
      if String.eqb s "verrol" then set_serverCapsVerRol true up
      else if String.eqb s "subres" then set_serverCapsSubRes true up
      else up
  | _ => up
  end.

Definition note_capabilities (caps : list JSONValue) (up : UpSession) : UpSession :=
  fold_left (fun up capability => note_capability capability up) caps up.

(** [m] keeps [P]: run on a session where [P] holds it leaves a session
    where [P] holds, whether it returns, panics or blocks, and it does not
    stop for want of unrolling steps. *)
Definition preserves {A : Type} (P : UpSession -> Prop) (m : M A) : Prop :=
  forall up, P up ->
    match m up with
    | Done _ up' | Panic up' | Blocked up' => P up'
    | OutOfFuel _ => False
    end.

(** The operations that send on or receive from the event channel. *)
Definition channel_op (o : Op) : bool :=
  match o with
  | OpRun | OpSendEvent _ | OpAddStratumSession _ | OpHandleEvent => true
  | _ => false
  end.

Definition has_byte (d : byte) (l : list byte) : bool :=
  existsb (fun b => Byte.eqb b d) l.

(** Whether the unread stream starts with an Ex-Message. *)
Definition starts_ExMessage (r : list byte) : bool :=
  match r with
  | b :: _ => Byte.eqb b ExMessageMagicNumber
  | [] => false
  end.

(** One turn of the response loop advances: when it returns, the session
    is disconnected or fewer bytes are left unread. *)
Definition advances (up : UpSession) (o : Outcome unit) : Prop :=
  match o with
  | Done _ up' => stat up' = StatDisconnected \/ (unread up' < unread up)%nat
  | Panic _ | Blocked _ => True
  | OutOfFuel _ => False
  end.

(** The operations that can assign a status other than [StatDisconnected]:
    [connect], the two handlers that complete a step of the handshake, and
    the methods that call them. *)
Definition moves_status (o : Op) : bool :=
  match o with
  | OpConnect | OpInit | OpInitHandleResponse | OpInitReadLine
  | OpHandleSubScribeResponse _ _ | OpHandleAuthorizeResponse _ _ => true
  | _ => false
  end.

(** ** Further vocabulary for the properties *)

(** The four requests [initSendRequest] builds, in the order it sends them. *)
Definition subscribeRequest : JSONRPCRequest :=
  {| reqID := JString "sub"; reqMethod := "mining.subscribe";
     reqParams := [JString UpSessionUserAgent] |}.

Definition configureRequest : JSONRPCRequest :=
  {| reqID := JString "conf"; reqMethod := "mining.configure";
     reqParams :=
       [JArray [JString "version-rolling"];
        JObject (<["version-rolling.mask" := JString "ffffffff"]>
                   (<["version-rolling.min-bit-count" := JInt 0]> ∅))] |}.

Definition capabilitiesRequest : JSONRPCRequest :=
  {| reqID := JString "caps"; reqMethod := "agent.get_capabilities";
     reqParams := [JArray [JString "verrol"]] |}.

Definition authorizeRequest (subAccount : string) : JSONRPCRequest :=
  {| reqID := JString "auth"; reqMethod := "mining.authorize";
     reqParams := [JString subAccount; JString ""] |}.

(** A connection that takes writes: open, with no write failure pending. *)
Definition healthy (c : Conn) : Prop := closed c = false /\ writeErrors c = [].

(** The connection after [lines] were written to it. *)
Definition wrote (lines : list (list byte)) (c : Conn) : Conn :=
  {| remoteAddr := remoteAddr c; inbound := inbound c; writeErrors := writeErrors c;
     written := written c ++ lines; closed := closed c |}.

(** The statuses in which [writeJSONRequestToServer] refuses to write. *)
Definition unusable (s : AuthorizeStat) : bool :=
  bool_decide (s = StatConnecting) || bool_decide (s = StatDisconnected).

(** What a subscribe result decodes to, when it has the expected shape:
    the session identifier and the extra-nonce-2 width. *)
Definition subscribe_decoded (result : JSONValue) : option (Z * Z) :=
  match result with
  | JArray l =>
      match l !! 1%nat, l !! 2%nat with
      | Some (JString sessionIDHex), Some (JNumber f) =>
          match strconv.ParseUint16 sessionIDHex 32 with
          | (sid, None) => Some (sid, int_of_float64 f)
          | _ => None
          end
      | _, _ => None
      end
  | _ => None
  end.

(** Whether the string [name] is among the capabilities. *)
Definition has_capability (name : string) (caps : list JSONValue) : bool :=
  existsb (fun v => match v with JString s => String.eqb s name | _ => false end) caps.

(** The version mask a [mining.set_version_mask] request carries, when its
    first parameter is a hex string of at most 32 bits. *)
Definition version_mask_of (params : list JSONValue) : option Z :=
  match params with
  | JString versionMaskHex :: _ =>
      match strconv.ParseUint16 versionMaskHex 32 with
      | (mask, None) => Some mask
      | _ => None
      end
  | _ => None
  end.

(** The decoded lines [initReadLine] does not act on: a pool request other
    than [mining.set_version_mask] whatever its identifier, and a response
    whose identifier is "conf" or none of the four the handshake uses. *)
Definition ignored (rpcData : JSONRPCLine) : bool :=
  if (0 <? String.length (Method rpcData))%nat
  then negb (String.eqb (Method rpcData) "mining.set_version_mask")
  else match ID rpcData with
       | JString id =>
           negb (String.eqb id "sub") && negb (String.eqb id "caps")
           && negb (String.eqb id "auth")
       | _ => true
       end.


Definition stat_is_not (s : AuthorizeStat) (up : UpSession) : Prop := stat up <> s.

(** The map after the queued events were handled in order: each attach
    event stores its session under the session's identifier. *)
Definition attach_all (events : list Event) (m : gmap Z StratumSession.t) :
    gmap Z StratumSession.t :=
  fold_left (fun m event =>
               match event with
               | EventAddStratumSession (Some session) =>
                   <[StratumSession.sessionID session := session]> m
               | _ => m
               end) events m.

(** An attach event that carries a nil session. *)
Definition nil_attach (event : Event) : bool :=
  match event with
  | EventAddStratumSession None => true
  | _ => false
  end.

(** ** Properties *)

Lemma bind_Done {A B : Type} (m : M A) (k : A -> M B) up a up' :
  m up = Done a up' -> bind m k up = k a up'.
Proof. intros H. unfold bind. rewrite H. reflexivity. Qed.

(** *** The library models *)

Lemma digit16_bound maxVal n c n1 :
  strconv.digit16 maxVal n c = inl n1 -> 0 <= n1 <= maxVal.
Proof.
  unfold strconv.digit16. cbv zeta.
  repeat case_match; try discriminate; intros [= <-];
    match goal with
    | H : _ || _ = false |- _ =>
        apply orb_false_iff in H as [_ H]; apply Z.ltb_ge in H;
        split; [apply Z.mod_pos_bound; lia | exact H]
    end.
Qed.

Lemma digits16_bound maxVal s : forall n v,
  0 <= n <= maxVal -> strconv.digits16 maxVal n s = (v, None) -> 0 <= v <= maxVal.
Proof.
  induction s as [|c s IH]; intros n v Hn; simpl.
  - intros [= <-]. exact Hn.
  - destruct (strconv.digit16 maxVal n _) as [n1|r] eqn:Hd.
    + apply IH. eapply digit16_bound; eauto.
    + unfold strconv.digit16 in Hd.
      intros ->. repeat case_match; discriminate.
Qed.

(** A successful [ParseUint(s, 16, 32)] yields an unsigned 32-bit value, so
    the conversion [uint32] that follows it changes nothing. *)
Lemma ParseUint16_32_bound s v :
  strconv.ParseUint16 s 32 = (v, None) -> 0 <= v < 2 ^ 32.
Proof.
  unfold strconv.ParseUint16. destruct s as [|c s]; [discriminate|].
  change (32 =? 0) with false. cbv iota.
  change ((32 <? 0) || (64 <? 32)) with false. cbv iota.
  intros H. apply digits16_bound in H; lia.
Qed.

Lemma uint32_ParseUint16 s v :
  strconv.ParseUint16 s 32 = (v, None) -> uint32 v = v.
Proof.
  intros H. apply ParseUint16_32_bound in H. unfold uint32.
  apply Z.mod_small. exact H.
Qed.

Lemma int_of_float64_trunc f w :
  float64_trunc f = Some w -> - 2 ^ 63 <= w < 2 ^ 63 -> int_of_float64 f = w.
Proof.
  intros Hf Hw. unfold int_of_float64. rewrite Hf.
  destruct (- 2 ^ 63 <=? w) eqn:H1; [|apply Z.leb_gt in H1; lia].
  destruct (w <? 2 ^ 63) eqn:H2; [reflexivity|apply Z.ltb_ge in H2; lia].
Qed.

(** *** Logging and closing on a session that holds a connection *)

Lemma glog_IP_conn up c : serverConn up = Some c -> glog_IP up = Done tt up.
Proof. intros H. unfold glog_IP, IP, bind, get, ret. rewrite H. reflexivity. Qed.

Lemma close_conn up c :
  serverConn up = Some c ->
  close up = Done tt (set_serverConn (Some (Conn_Close c)) (set_stat StatDisconnected up)).
Proof.
  intros H. unfold close, bind, modify, serverConn_Close. simpl. rewrite H. reflexivity.
Qed.

Lemma glog_close_conn up c :
  serverConn up = Some c ->
  (glog_IP ;;; close) up
  = Done tt (set_serverConn (Some (Conn_Close c)) (set_stat StatDisconnected up)).
Proof.
  intros H. unfold bind at 1. rewrite (glog_IP_conn up c H). apply close_conn, H.
Qed.

(** *** The subscribe response *)

(** The path of [handleSubScribeResponse] through a result whose element 1
    parses and whose element 2 is a number: both fields are written, then
    the width decides. *)
Lemma handleSubScribeResponse_decoded rpcData jsonBytes up result sessionIDHex sid f :
  Result rpcData = JArray result ->
  result !! 1%nat = Some (JString sessionIDHex) ->
  strconv.ParseUint16 sessionIDHex 32 = (sid, None) ->
  result !! 2%nat = Some (JNumber f) ->
  handleSubScribeResponse rpcData jsonBytes up
  = let up' := set_extraNonce2Size (int_of_float64 f) (set_sessionID sid up) in
    if int_of_float64 f <? 6 then (glog_IP ;;; close) up'
    else Done tt (set_stat StatSubScribed up').
Proof.
  intros HR H1 Hsid H2.
  assert (Hlen : (length result <? 3)%nat = false).
  { apply Nat.ltb_ge. apply lookup_lt_Some in H2. lia. }
  unfold handleSubScribeResponse. rewrite HR, Hlen, H1, Hsid.
  rewrite (uint32_ParseUint16 _ _ Hsid).
  unfold bind at 1. unfold modify at 1. rewrite H2.
  unfold bind at 1. unfold modify at 1.
  unfold bind at 1. unfold get at 1.
  cbn [extraNonce2Size set_extraNonce2Size].
  destruct (int_of_float64 f <? 6); reflexivity.
Qed.

(** C1. A subscribe response whose result is an array with a hex string
    for a 32-bit session identifier at index 1 and, at index 2, a number
    whose integer part is a width between 6 and 16: the handler returns
    with [sessionID] and [extraNonce2Size] set to exactly the decoded
    values, [stat] set to [StatSubScribed], and nothing else changed. *)
Theorem handleSubScribeResponse_valid rpcData jsonBytes up result sessionIDHex sid f w :
  Result rpcData = JArray result ->
  (3 <= length result)%nat ->
  result !! 1%nat = Some (JString sessionIDHex) ->
  strconv.ParseUint16 sessionIDHex 32 = (sid, None) ->
  result !! 2%nat = Some (JNumber f) ->
  float64_trunc f = Some w ->
  6 <= w <= 16 ->
  0 <= sid < 2 ^ 32 /\
  handleSubScribeResponse rpcData jsonBytes up
  = Done tt (set_stat StatSubScribed (set_extraNonce2Size w (set_sessionID sid up))) /\
  sessionID (session_of (handleSubScribeResponse rpcData jsonBytes up)) = sid /\
  extraNonce2Size (session_of (handleSubScribeResponse rpcData jsonBytes up)) = w /\
  stat (session_of (handleSubScribeResponse rpcData jsonBytes up)) = StatSubScribed.
Proof.
  intros HR _ H1 Hsid H2 Hf Hw.
  assert (Hint : int_of_float64 f = w) by (apply int_of_float64_trunc; [exact Hf | lia]).
  assert (Hrun : handleSubScribeResponse rpcData jsonBytes up
                 = Done tt (set_stat StatSubScribed
                              (set_extraNonce2Size w (set_sessionID sid up)))).
  { rewrite (handleSubScribeResponse_decoded _ _ _ _ _ _ _ HR H1 Hsid H2).
    cbv zeta. rewrite Hint.
    destruct (w <? 6) eqn:E; [apply Z.ltb_lt in E; lia | reflexivity]. }
  split; [exact (ParseUint16_32_bound _ _ Hsid)|].
  rewrite Hrun. repeat split.
Qed.

(** The incompatible width, on a session that holds a connection. *)
Lemma handleSubScribeResponse_incompatible rpcData jsonBytes up c result sessionIDHex sid f :
  serverConn up = Some c ->
  Result rpcData = JArray result ->
  result !! 1%nat = Some (JString sessionIDHex) ->
  strconv.ParseUint16 sessionIDHex 32 = (sid, None) ->
  result !! 2%nat = Some (JNumber f) ->
  int_of_float64 f < 6 ->
  handleSubScribeResponse rpcData jsonBytes up
  = close (set_extraNonce2Size (int_of_float64 f) (set_sessionID sid up)) /\
  handleSubScribeResponse rpcData jsonBytes up
  = Done tt (set_serverConn (Some (Conn_Close c))
               (set_stat StatDisconnected
                  (set_extraNonce2Size (int_of_float64 f) (set_sessionID sid up)))).
Proof.
  intros Hc HR H1 Hsid H2 Hw.
  rewrite (handleSubScribeResponse_decoded _ _ _ _ _ _ _ HR H1 Hsid H2).
  cbv zeta.
  destruct (int_of_float64 f <? 6) eqn:E; [|apply Z.ltb_ge in E; lia].
  set (up' := set_extraNonce2Size _ _).
  assert (Hc' : serverConn up' = Some c) by exact Hc.
  rewrite (glog_close_conn up' c Hc'), (close_conn up' c Hc'). split; reflexivity.
Qed.

(** C3. A subscribe response that is well-formed except that its width is
    below 6, handled by a session that holds its connection: the handler
    closes the connection and returns with [stat] equal to
    [StatDisconnected], not [StatSubScribed]. *)
Theorem handleSubScribeResponse_short_width rpcData jsonBytes up c result sessionIDHex sid f :
  serverConn up = Some c ->
  Result rpcData = JArray result ->
  result !! 1%nat = Some (JString sessionIDHex) ->
  strconv.ParseUint16 sessionIDHex 32 = (sid, None) ->
  result !! 2%nat = Some (JNumber f) ->
  int_of_float64 f < 6 ->
  exists up',
    handleSubScribeResponse rpcData jsonBytes up = Done tt up' /\
    stat up' = StatDisconnected /\
    stat up' <> StatSubScribed /\
    serverConn up' = Some (Conn_Close c) /\
    closed (Conn_Close c) = true.
Proof.
  intros Hc HR H1 Hsid H2 Hw.
  destruct (handleSubScribeResponse_incompatible _ jsonBytes _ _ _ _ _ _ Hc HR H1 Hsid H2 Hw)
    as [_ Hrun].
  eexists. split; [exact Hrun|]. repeat split. discriminate.
Qed.

(** C10. The handler is not atomic on the incompatible width: when
    element 1 decodes as a 32-bit hex value and element 2 is a number whose
    width is below 6, [close] runs on a session whose [sessionID] and
    [extraNonce2Size] already hold the decoded values, and they are still
    there when the handler returns with the session disconnected. *)
Theorem handleSubScribeResponse_not_atomic rpcData jsonBytes up c result sessionIDHex sid f :
  serverConn up = Some c ->
  Result rpcData = JArray result ->
  result !! 1%nat = Some (JString sessionIDHex) ->
  strconv.ParseUint16 sessionIDHex 32 = (sid, None) ->
  result !! 2%nat = Some (JNumber f) ->
  int_of_float64 f < 6 ->
  handleSubScribeResponse rpcData jsonBytes up
  = close (set_extraNonce2Size (int_of_float64 f) (set_sessionID sid up)) /\
  exists up',
    handleSubScribeResponse rpcData jsonBytes up = Done tt up' /\
    sessionID up' = sid /\
    extraNonce2Size up' = int_of_float64 f /\
    stat up' = StatDisconnected /\
    (sessionID up <> sid \/ extraNonce2Size up <> int_of_float64 f -> up' <> up).
Proof.
  intros Hc HR H1 Hsid H2 Hw.
  destruct (handleSubScribeResponse_incompatible _ jsonBytes _ _ _ _ _ _ Hc HR H1 Hsid H2 Hw)
    as [Hclose Hrun].
  split; [exact Hclose|].
  eexists. split; [exact Hrun|]. repeat split.
  intros Hne Heq. rewrite <- Heq in Hne. cbn in Hne. destruct Hne as [Hne|Hne]; apply Hne; reflexivity.
Qed.

(** *** The authorize response *)


(** *** The capabilities response *)

Lemma note_capability_fields capability up :
  serverConn (note_capability capability up) = serverConn up /\
  config (note_capability capability up) = config up /\
  stat (note_capability capability up) = stat up.
Proof.
  unfold note_capability. destruct capability; auto.
  repeat case_match; auto.
Qed.

Lemma note_capabilities_fields caps : forall up,
  serverConn (note_capabilities caps up) = serverConn up /\
  config (note_capabilities caps up) = config up /\
  stat (note_capabilities caps up) = stat up.
Proof.
  induction caps as [|capability caps IH]; intros up; [auto|].
  unfold note_capabilities in *. cbn [fold_left].
  destruct (IH (note_capability capability up)) as (-> & -> & ->).
  apply note_capability_fields.
Qed.

Lemma range_capabilities caps : forall up,
  range caps (fun capability =>
    match capability with
    | JString s =>
        if String.eqb s "verrol" then modify (set_serverCapsVerRol true)
        else if String.eqb s "subres" then modify (set_serverCapsSubRes true)
        else ret tt
    | _ => ret tt
    end) up
  = Done tt (note_capabilities caps up).
Proof.
  induction caps as [|capability caps IH]; intros up; [reflexivity|].
  cbn [range]. unfold note_capabilities. cbn [fold_left].
  erewrite bind_Done; [apply IH|].
  unfold note_capability. destruct capability; try reflexivity.
  repeat case_match; reflexivity.
Qed.

(** On a session that holds its connection and its configuration the
    handler always returns: it has folded the capabilities array, taken as
    empty when the result has not the expected shape, into the two flags. *)
Lemma handleGetCapsResponse_run rpcData jsonBytes up c cfg :
  serverConn up = Some c ->
  config up = Some cfg ->
  handleGetCapsResponse rpcData jsonBytes up
  = Done tt (note_capabilities (default [] (capabilities_of (Result rpcData))) up).
Proof.
  intros Hc Hcfg.
  assert (Hlog : forall (b : bool) up, serverConn up = Some c ->
            (if b then glog_IP else ret tt) up = Done tt up).
  { intros [|] up' Hc'; [apply (glog_IP_conn up' c Hc') | reflexivity]. }
  assert (Hrun : forall caps (ok1 ok2 ok3 : bool),
    ((if negb ok1 then glog_IP else ret tt) ;;;
     (if negb ok2 then glog_IP else ret tt) ;;;
     (if negb ok3 then glog_IP else ret tt) ;;;
     range caps (fun capability =>
       match capability with
       | JString s =>
           if String.eqb s "verrol" then modify (set_serverCapsVerRol true)
           else if String.eqb s "subres" then modify (set_serverCapsSubRes true)
           else ret tt
       | _ => ret tt
       end) ;;;
     let* up := get in
     (if negb (serverCapsVerRol up) then glog_IP else ret tt) ;;;
     let* cfg := deref_config in
     let* up := get in
     if SubmitResponseFromServer cfg && negb (serverCapsSubRes up) then ret tt else ret tt) up
    = Done tt (note_capabilities caps up)).
  { intros caps ok1 ok2 ok3.
    destruct (note_capabilities_fields caps up) as (Hc' & Hcfg' & _).
    rewrite Hc in Hc'. rewrite Hcfg in Hcfg'.
    do 3 (erewrite bind_Done; [|apply Hlog, Hc]).
    erewrite bind_Done; [|apply range_capabilities].
    erewrite bind_Done; [|reflexivity].
    erewrite bind_Done; [|apply Hlog, Hc'].
    erewrite bind_Done; [|unfold deref_config; rewrite Hcfg'; reflexivity].
    erewrite bind_Done; [|reflexivity].
    destruct (_ && _); reflexivity. }
  unfold handleGetCapsResponse, capabilities_of.
  destruct (Result rpcData) as [| | | | | |m]; try rewrite lookup_empty; try apply Hrun.
  destruct (m !! "capabilities") as [[| | | | |l|]|]; apply Hrun.
Qed.


(** *** Invariants of the methods *)

Lemma preserves_session_of {A : Type} (P : UpSession -> Prop) (m : M A) up :
  preserves P m -> P up -> P (session_of (m up)).
Proof. intros Hm HP. specialize (Hm up HP). destruct (m up); [auto..|contradiction]. Qed.

Lemma preserves_ret {A : Type} (P : UpSession -> Prop) (a : A) : preserves P (ret a).
Proof. intros up HP. exact HP. Qed.

Lemma preserves_get (P : UpSession -> Prop) : preserves P get.
Proof. intros up HP. exact HP. Qed.

Lemma preserves_panic {A : Type} (P : UpSession -> Prop) : preserves P (@panic A).
Proof. intros up HP. exact HP. Qed.

Lemma preserves_block {A : Type} (P : UpSession -> Prop) : preserves P (@block A).
Proof. intros up HP. exact HP. Qed.

Lemma preserves_modify (P : UpSession -> Prop) f :
  (forall up, P up -> P (f up)) -> preserves P (modify f).
Proof. intros Hf up HP. apply Hf, HP. Qed.

Lemma preserves_bind {A B : Type} (P : UpSession -> Prop) (m : M A) (k : A -> M B) :
  preserves P m -> (forall a, preserves P (k a)) -> preserves P (bind m k).
Proof.
  intros Hm Hk up HP. unfold bind. specialize (Hm up HP).
  destruct (m up) as [a up'| | |]; try exact Hm. apply Hk, Hm.
Qed.

Lemma preserves_range {A : Type} (P : UpSession -> Prop) (l : list A) body :
  (forall x, preserves P (body x)) -> preserves P (range l body).
Proof.
  intros Hb. induction l as [|x l IH]; cbn [range].
  - apply preserves_ret.
  - apply preserves_bind; [apply Hb | intros _; exact IH].
Qed.

Create HintDb session discriminated.

(** Splits a method into its statements, by their syntax; [field] settles
    what a [modify] writes. *)
Ltac preserves_with field :=
  repeat match goal with
    | |- preserves _ (ret _) => apply preserves_ret
    | |- preserves _ get => apply preserves_get
    | |- preserves _ panic => apply preserves_panic
    | |- preserves _ block => apply preserves_block
    | |- preserves _ (modify _) => apply preserves_modify; intros ? ?; field
    | |- preserves _ (bind _ _) => apply preserves_bind; [|intros ?]
    | |- preserves _ (range _ _) => apply preserves_range; intros ?
    | |- preserves _ (match ?x with _ => _ end) => destruct x
    | |- preserves _ _ => solve [auto with session]
    end.

(** A property of the session that the writes of a method do not disturb
    is kept by the method.  Each lemma below depends on the hypotheses for
    the fields its method writes, and on no other. *)
Section Frame.

Variable P : UpSession -> Prop.

Hypothesis P_serverConn : forall v up, P up -> P (set_serverConn v up).
Hypothesis P_disconnected : forall up, P up -> P (set_stat StatDisconnected up).
Hypothesis P_versionMask : forall v up, P up -> P (set_versionMask v up).
Hypothesis P_serverCapsVerRol : forall v up, P up -> P (set_serverCapsVerRol v up).
Hypothesis P_serverCapsSubRes : forall v up, P up -> P (set_serverCapsSubRes v up).
Hypothesis P_sessionID : forall v up, P up -> P (set_sessionID v up).
Hypothesis P_extraNonce2Size : forall v up, P up -> P (set_extraNonce2Size v up).
Hypothesis P_stat : forall v up, P up -> P (set_stat v up).
Hypothesis P_serverReader : forall v up, P up -> P (set_serverReader v up).
Hypothesis P_stratumSessions : forall v up, P up -> P (set_stratumSessions v up).

Ltac frame :=
  first [ apply P_serverConn | apply P_disconnected | apply P_versionMask
        | apply P_serverCapsVerRol | apply P_serverCapsSubRes
        | apply P_sessionID | apply P_extraNonce2Size | apply P_stat
        | apply P_serverReader | apply P_stratumSessions ];
  assumption.

Ltac preserves_tac := preserves_with frame.

Lemma deref_config_preserves : preserves P deref_config.
Proof. intros up HP. unfold deref_config. destruct (config up); exact HP. Qed.

Hint Resolve deref_config_preserves : session.

Lemma config_pool_preserves : preserves P config_pool.
Proof. unfold config_pool. preserves_tac. Qed.

Lemma serverReader_Peek1_preserves : preserves P serverReader_Peek1.
Proof. intros up HP. unfold serverReader_Peek1. destruct (serverReader up); exact HP. Qed.

Lemma serverReader_ReadBytes_preserves delim : preserves P (serverReader_ReadBytes delim).
Proof.
  intros up HP. unfold serverReader_ReadBytes.
  destruct (serverReader up); [|exact HP]. destruct (bufio.ReadBytes _ _).
  apply P_serverReader, HP.
Qed.

Lemma serverReader_Discard_preserves n : preserves P (serverReader_Discard n).
Proof.
  intros up HP. unfold serverReader_Discard.
  destruct (serverReader up); [|exact HP]. destruct (bufio.Discard _ _).
  apply P_serverReader, HP.
Qed.

Lemma serverConn_Write_preserves bytes : preserves P (serverConn_Write bytes).
Proof.
  intros up HP. unfold serverConn_Write.
  destruct (serverConn up); [|exact HP]. destruct (Conn_Write _ _).
  apply P_serverConn, HP.
Qed.

Lemma serverConn_Close_preserves : preserves P serverConn_Close.
Proof.
  intros up HP. unfold serverConn_Close.
  destruct (serverConn up); [|exact HP]. apply P_serverConn, HP.
Qed.

Hint Resolve config_pool_preserves serverReader_Peek1_preserves
  serverReader_ReadBytes_preserves serverReader_Discard_preserves
  serverConn_Write_preserves serverConn_Close_preserves : session.

Lemma connect_preserves : preserves P connect.
Proof. unfold connect. preserves_tac. Qed.

Lemma writeJSONRequestToServer_preserves jsonData :
  preserves P (writeJSONRequestToServer jsonData).
Proof. unfold writeJSONRequestToServer. preserves_tac. Qed.

Hint Resolve writeJSONRequestToServer_preserves : session.

Lemma initSendRequest_preserves : preserves P initSendRequest.
Proof. unfold initSendRequest. cbv zeta. preserves_tac. Qed.

Lemma close_preserves : preserves P close.
Proof. unfold close. preserves_tac. Qed.

Lemma IP_preserves : preserves P IP.
Proof. unfold IP. preserves_tac. Qed.

Hint Resolve close_preserves IP_preserves : session.

Lemma glog_IP_preserves : preserves P glog_IP.
Proof. unfold glog_IP. preserves_tac. Qed.

Hint Resolve glog_IP_preserves : session.

Lemma handleSetVersionMask_preserves rpcData jsonBytes :
  preserves P (handleSetVersionMask rpcData jsonBytes).
Proof. unfold handleSetVersionMask. preserves_tac. Qed.

Lemma handleSubScribeResponse_preserves rpcData jsonBytes :
  preserves P (handleSubScribeResponse rpcData jsonBytes).
Proof. unfold handleSubScribeResponse. preserves_tac. Qed.

Lemma handleConfigureResponse_preserves rpcData jsonBytes :
  preserves P (handleConfigureResponse rpcData jsonBytes).
Proof. unfold handleConfigureResponse. preserves_tac. Qed.

Lemma handleGetCapsResponse_preserves rpcData jsonBytes :
  preserves P (handleGetCapsResponse rpcData jsonBytes).
Proof. unfold handleGetCapsResponse. preserves_tac. Qed.

Lemma handleAuthorizeResponse_preserves rpcData jsonBytes :
  preserves P (handleAuthorizeResponse rpcData jsonBytes).
Proof. unfold handleAuthorizeResponse. preserves_tac. Qed.

Hint Resolve handleSetVersionMask_preserves handleSubScribeResponse_preserves
  handleConfigureResponse_preserves handleGetCapsResponse_preserves
  handleAuthorizeResponse_preserves : session.

Lemma initReadExMessage_preserves : preserves P initReadExMessage.
Proof. unfold initReadExMessage. preserves_tac. Qed.

Lemma initReadLine_preserves : preserves P initReadLine.
Proof. unfold initReadLine. preserves_tac. Qed.

Hint Resolve initReadExMessage_preserves initReadLine_preserves : session.

Lemma initHandleResponse_preserves : preserves P initHandleResponse.
Proof. unfold initHandleResponse. preserves_tac. Qed.

Lemma addStratumSession_preserves e : preserves P (addStratumSession e).
Proof. unfold addStratumSession. preserves_tac. Qed.

End Frame.

(** The methods a turn of the loop calls, for a property [field] settles. *)
Ltac preserves_methods field :=
  repeat first
    [ progress (preserves_with field)
    | match goal with
      | |- preserves _ glog_IP => apply glog_IP_preserves
      | |- preserves _ close => apply close_preserves; intros; field
      | |- preserves _ serverReader_Peek1 => apply serverReader_Peek1_preserves
      | |- preserves _ (handleSetVersionMask _ _) =>
          apply handleSetVersionMask_preserves; intros; field
      | |- preserves _ (handleSubScribeResponse _ _) =>
          apply handleSubScribeResponse_preserves; intros; field
      | |- preserves _ (handleConfigureResponse _ _) =>
          apply handleConfigureResponse_preserves
      | |- preserves _ (handleGetCapsResponse _ _) =>
          apply handleGetCapsResponse_preserves; intros; field
      | |- preserves _ (handleAuthorizeResponse _ _) =>
          apply handleAuthorizeResponse_preserves; intros; field
      end ].

(** *** The response loop *)

Lemma ReadBytes_shorter delim r : forall line r',
  bufio.ReadBytes delim r = ((line, None), r') -> (length r' < length r)%nat.
Proof.
  induction r as [|b r IH]; intros line r'; cbn [bufio.ReadBytes]; [discriminate|].
  destruct (Byte.eqb b delim).
  - intros [= _ <-]. cbn. lia.
  - destruct (bufio.ReadBytes delim r) as [[line0 err0] rest0].
    intros [= _ -> <-]. specialize (IH _ _ eq_refl). cbn. lia.
Qed.

Lemma ReadBytes_line delim body rest :
  has_byte delim body = false ->
  bufio.ReadBytes delim (body ++ delim :: rest) = ((body ++ [delim], None), rest).
Proof.
  induction body as [|b body IH]; cbn [has_byte existsb app bufio.ReadBytes].
  - intros _. rewrite (Byte.byte_dec_lb (eq_refl delim)). reflexivity.
  - intros H. apply orb_false_iff in H as [Hb H]. rewrite Hb.
    unfold has_byte in IH. rewrite (IH H). reflexivity.
Qed.

Lemma Discard_shorter n r res r' :
  bufio.Discard n r = (res, r') -> (length r' <= length r)%nat.
Proof.
  unfold bufio.Discard. repeat case_match; intros [= _ <-]; cbn; try lia.
  rewrite length_drop. lia.
Qed.

Lemma serverReader_Discard_unread n k :
  preserves (fun up => (unread up <= k)%nat) (serverReader_Discard n).
Proof.
  intros up HP. unfold serverReader_Discard.
  destruct (serverReader up) as [r|] eqn:Hr; [|exact HP].
  destruct (bufio.Discard n r) as [res r'] eqn:Hd.
  apply Discard_shorter in Hd. unfold unread in *. rewrite Hr in HP. cbn. lia.
Qed.

(** Logging and closing returns disconnected, if it returns. *)
Lemma glog_close_advances up0 up : advances up0 ((glog_IP ;;; close) up).
Proof.
  unfold advances, bind, glog_IP, IP, config_pool, deref_config, close,
    serverConn_Close, bind, modify, get, ret, panic.
  repeat (case_match; simplify_eq/=); auto.
Qed.

Lemma preserves_advances (m : M unit) up0 up n :
  preserves (fun up => (unread up <= n)%nat) m ->
  (unread up <= n)%nat -> (n < unread up0)%nat ->
  advances up0 (m up).
Proof.
  intros Hm Hup Hn. specialize (Hm up Hup). unfold advances.
  destruct (m up); auto. right. lia.
Qed.

Lemma initReadLine_advances up : advances up (initReadLine up).
Proof.
  unfold initReadLine. unfold bind at 1. unfold serverReader_ReadBytes.
  destruct (serverReader up) as [r|] eqn:Hr; [|exact I].
  destruct (bufio.ReadBytes x0a r) as [[jsonBytes [e|]] r'] eqn:Hread.
  - apply glog_close_advances.
  - apply ReadBytes_shorter in Hread.
    cbv beta iota.
    apply (preserves_advances _ _ _ (length r')); [| cbn; lia | unfold unread; rewrite Hr; lia].
    preserves_methods ltac:(assumption).
Qed.

Lemma initReadExMessage_advances up : advances up (initReadExMessage up).
Proof.
  unfold initReadExMessage. unfold bind at 1. unfold serverReader_ReadBytes.
  destruct (serverReader up) as [r|] eqn:Hr; [|exact I].
  destruct (bufio.ReadBytes x04 r) as [[header [e|]] r'] eqn:Hread.
  - apply glog_close_advances.
  - apply ReadBytes_shorter in Hread.
    cbv beta iota.
    apply (preserves_advances _ _ _ (length r')); [| cbn; lia | unfold unread; rewrite Hr; lia].
    pose proof (serverReader_Discard_unread) as HD.
    preserves_methods ltac:(assumption); apply HD.
Qed.

Lemma initHandleResponse_advances up : advances up (initHandleResponse up).
Proof.
  unfold initHandleResponse. unfold bind at 1. unfold serverReader_Peek1.
  destruct (serverReader up) as [r|] eqn:Hr; [|exact I].
  destruct r as [|b r]; cbn [bufio.Peek1].
  - apply glog_close_advances.
  - cbn. destruct (Byte.eqb b ExMessageMagicNumber);
      [apply initReadExMessage_advances | apply initReadLine_advances].
Qed.

Lemma initLoop_stop fuel up :
  loopCond (stat up) = false -> initLoop fuel up = Done tt up.
Proof. intros H. destruct fuel; cbn [initLoop]; rewrite H; reflexivity. Qed.

(** Any two amounts of fuel above the number of unread bytes give the same
    outcome. *)
Lemma initLoop_fuel n : forall up m,
  (unread up < n)%nat -> (unread up < m)%nat -> initLoop n up = initLoop m up.
Proof.
  induction n as [|n IH]; intros up m Hn Hm; [lia|].
  destruct m as [|m]; [lia|].
  cbn [initLoop]. destruct (loopCond (stat up)); [|reflexivity].
  unfold bind. pose proof (initHandleResponse_advances up) as Hadv.
  destruct (initHandleResponse up) as [[] up1| | |]; try reflexivity.
  destruct Hadv as [Hd|Hlt].
  - rewrite !initLoop_stop; [reflexivity|rewrite Hd; reflexivity..].
  - apply IH; lia.
Qed.

(** The loop keeps what each of its turns keeps, and with more fuel than
    unread bytes it does not run out. *)
Lemma initLoop_preserves (P : UpSession -> Prop) :
  preserves P initHandleResponse ->
  forall fuel up, (unread up < fuel)%nat -> P up ->
    match initLoop fuel up with
    | Done _ up' | Panic up' | Blocked up' => P up'
    | OutOfFuel _ => False
    end.
Proof.
  intros HP. induction fuel as [|fuel IH]; intros up Hfuel Hup; [lia|].
  cbn [initLoop]. destruct (loopCond (stat up)); [|exact Hup].
  unfold bind. pose proof (initHandleResponse_advances up) as Hadv.
  specialize (HP up Hup).
  destruct (initHandleResponse up) as [[] up1| | |]; try exact HP.
  destruct Hadv as [Hd|Hlt].
  - rewrite initLoop_stop; [exact HP|rewrite Hd; reflexivity].
  - apply IH; [lia|exact HP].
Qed.

Lemma initResponses_preserves (P : UpSession -> Prop) :
  preserves P initHandleResponse -> preserves P initResponses.
Proof.
  intros HP up Hup. unfold initResponses. apply initLoop_preserves; auto.
Qed.

(** The response loop always comes to an end: it returns, panics or
    blocks, and never exhausts its unrolling. *)
Lemma initResponses_total up : forall up', initResponses up <> OutOfFuel up'.
Proof.
  intros up' H.
  pose proof (initResponses_preserves (fun _ => True)
                ltac:(intros u _; pose proof (initHandleResponse_advances u) as Ha;
                      unfold advances in Ha; destruct (initHandleResponse u); auto)
                up I) as Ht.
  rewrite H in Ht. exact Ht.
Qed.

Lemma Init_preserves (P : UpSession -> Prop) :
  (forall v up, P up -> P (set_serverConn v up)) ->
  (forall v up, P up -> P (set_stat v up)) ->
  (forall v up, P up -> P (set_serverReader v up)) ->
  preserves P initHandleResponse ->
  preserves P Init.
Proof.
  intros H1 H2 H3 HP. unfold Init.
  apply preserves_bind; [apply connect_preserves; auto|].
  intros [e|]; [apply glog_IP_preserves|].
  apply preserves_bind; [apply initSendRequest_preserves; auto|].
  intros [e|]; [|apply initResponses_preserves, HP].
  apply preserves_bind; [apply glog_IP_preserves|intros _; apply close_preserves; auto].
Qed.

(** *** A line that does not decode *)


(** *** The event channel *)

Lemma run_op_eventChannel o up :
  channel_op o = false -> eventChannel (run_op o up) = eventChannel up.
Proof.
  intros Ho.
  set (P := fun u => eventChannel u = eventChannel up).
  assert (Hresp : preserves P initHandleResponse)
    by (apply initHandleResponse_preserves; intros; assumption).
  destruct o; try discriminate Ho; cbn [run_op];
    apply (preserves_session_of P); try reflexivity.
  - apply connect_preserves; intros; assumption.
  - apply writeJSONRequestToServer_preserves; intros; assumption.
  - apply initSendRequest_preserves; intros; assumption.
  - apply close_preserves; intros; assumption.
  - apply IP_preserves; intros; assumption.
  - exact Hresp.
  - apply initReadExMessage_preserves; intros; assumption.
  - apply initReadLine_preserves; intros; assumption.
  - apply Init_preserves; try exact Hresp; intros; assumption.
  - apply handleSetVersionMask_preserves; intros; assumption.
  - apply handleSubScribeResponse_preserves; intros; assumption.
  - apply handleConfigureResponse_preserves; intros; assumption.
  - apply handleGetCapsResponse_preserves; intros; assumption.
  - apply handleAuthorizeResponse_preserves; intros; assumption.
  - apply addStratumSession_preserves; intros; assumption.
Qed.

Lemma SendEvent_nil event up : eventChannel up = None -> SendEvent event up = Blocked up.
Proof. intros H. unfold SendEvent. rewrite H. reflexivity. Qed.

Lemma handleEvent_nil up : eventChannel up = None -> handleEvent up = Blocked up.
Proof. intros H. unfold handleEvent. rewrite H. reflexivity. Qed.

Lemma run_op_nil o up : eventChannel up = None -> eventChannel (run_op o up) = None.
Proof.
  intros H. destruct (channel_op o) eqn:Ho.
  - destruct o; try discriminate Ho; cbn [run_op]; unfold Run, AddStratumSession;
      rewrite ?(SendEvent_nil _ _ H), ?(handleEvent_nil _ H); exact H.
  - rewrite (run_op_eventChannel _ _ Ho). exact H.
Qed.

Lemma run_ops_nil ops : forall up,
  eventChannel up = None -> eventChannel (run_ops ops up) = None.
Proof.
  induction ops as [|o ops IH]; intros up H; [exact H|].
  apply IH, run_op_nil, H.
Qed.

(** C9. A session made by [NewUpSession] has a nil [eventChannel], the
    status [StatDisconnected] and an empty [stratumSessions].  No method
    outside the event loop changes [eventChannel], whatever it holds; and
    after any sequence of method calls on a new session, [connect], the
    whole of [Init] and [close] among them, the channel is still nil, so
    that [SendEvent] and [AddStratumSession] find a nil channel and block
    for ever. *)
Theorem eventChannel_stays_nil manager config subAccount poolIndex ops event session :
  let up0 := NewUpSession manager config subAccount poolIndex in
  let up := run_ops ops up0 in
  eventChannel up0 = None /\
  stat up0 = StatDisconnected /\
  stratumSessions up0 = ∅ /\
  (forall o u, channel_op o = false -> eventChannel (run_op o u) = eventChannel u) /\
  eventChannel (session_of (connect up0)) = None /\
  eventChannel (session_of (Init up0)) = None /\
  eventChannel (session_of (close (session_of (Init up0)))) = None /\
  eventChannel up = None /\
  SendEvent event up = Blocked up /\
  AddStratumSession session up = Blocked up.
Proof.
  intros up0 up.
  assert (Hup : eventChannel up = None) by (apply run_ops_nil; reflexivity).
  split; [reflexivity|]. split; [reflexivity|]. split; [reflexivity|].
  split; [intros o u; apply run_op_eventChannel|].
  split; [apply (run_op_eventChannel OpConnect up0 eq_refl)|].
  split; [apply (run_op_eventChannel OpInit up0 eq_refl)|].
  split; [apply (run_ops_nil [OpInit; OpClose] up0 eq_refl)|].
  split; [exact Hup|].
  split; [apply SendEvent_nil, Hup | apply SendEvent_nil, Hup].
Qed.

(** *** The status once disconnected *)

Lemma SendEvent_preserves (P : UpSession -> Prop) event :
  (forall v up, P up -> P (set_eventChannel v up)) ->
  preserves P (SendEvent event).
Proof.
  intros HP up Hup. unfold SendEvent.
  destruct (eventChannel up) as [ch|]; [|exact Hup].
  destruct (_ <? _)%nat; [apply HP, Hup | exact Hup].
Qed.

Lemma handleEvents_preserves (P : UpSession -> Prop) cap buf :
  (forall v up, P up -> P (set_eventChannel v up)) ->
  (forall v up, P up -> P (set_stratumSessions v up)) ->
  preserves P (handleEvents cap buf).
Proof.
  intros H1 H2. induction buf as [|event buf IH]; cbn [handleEvents].
  - apply preserves_block.
  - apply preserves_bind; [apply preserves_modify; intros; apply H1; assumption|].
    intros _. apply preserves_bind; [|intros _; exact IH].
    destruct event; [apply addStratumSession_preserves, H2 | apply preserves_ret].
Qed.

Lemma handleEvent_preserves (P : UpSession -> Prop) :
  (forall v up, P up -> P (set_eventChannel v up)) ->
  (forall v up, P up -> P (set_stratumSessions v up)) ->
  preserves P handleEvent.
Proof.
  intros H1 H2 up Hup. unfold handleEvent.
  destruct (eventChannel up) as [ch|]; [|exact Hup].
  apply handleEvents_preserves; assumption.
Qed.

(** C6, as the code has it. Once [stat] is [StatDisconnected] it stays
    so through every method that is not [connect], the subscribe or the
    authorize handler, or a caller of one of them: through [close],
    [writeJSONRequestToServer], [initSendRequest], [IP],
    [initReadExMessage], the set-version-mask, configure and capabilities
    handlers and the event methods; and the response loop of [Init] takes
    no turn on a disconnected session. *)
Theorem Disconnected_kept o up :
  stat up = StatDisconnected ->
  (moves_status o = false -> stat (run_op o up) = StatDisconnected) /\
  initResponses up = Done tt up.
Proof.
  intros Hd. split.
  - intros Ho.
    set (P := fun u => stat u = StatDisconnected).
    destruct o; try discriminate Ho; cbn [run_op]; apply (preserves_session_of P);
      try exact Hd.
    + apply writeJSONRequestToServer_preserves; intros; assumption.
    + apply initSendRequest_preserves; intros; assumption.
    + apply close_preserves; intros; first [assumption | reflexivity].
    + apply IP_preserves.
    + apply initReadExMessage_preserves; intros; first [assumption | reflexivity].
    + apply handleSetVersionMask_preserves; intros; assumption.
    + apply handleConfigureResponse_preserves.
    + apply handleGetCapsResponse_preserves; intros; assumption.
    + apply handleEvent_preserves; intros; assumption.
    + apply SendEvent_preserves; intros; assumption.
    + apply SendEvent_preserves; intros; assumption.
    + apply addStratumSession_preserves; intros; assumption.
    + apply handleEvent_preserves; intros; assumption.
  - unfold initResponses. apply initLoop_stop. rewrite Hd. reflexivity.
Qed.

(** *** Two places where the code parts from its documentation *)


(** A frame whose declared length is 4 has the byte 4 at index 2 at the
    latest, so [ReadBytes(4)] hands back at most three bytes and the
    length field cannot be read: the method panics, whatever the magic
    and type bytes are. *)
Lemma initReadExMessage_length4_panics up m t rest :
  serverReader up = Some (m :: t :: x04 :: x00 :: rest) ->
  exists left, initReadExMessage up = Panic (set_serverReader (Some left) up) /\
               (length (x00 :: rest) <= length left)%nat.
Proof.
  intros Hr. unfold initReadExMessage. unfold bind at 1. unfold serverReader_ReadBytes.
  rewrite Hr. cbn [bufio.ReadBytes].
  destruct (Byte.eqb m x04); [eexists; split; [reflexivity|cbn; lia]|].
  destruct (Byte.eqb t x04); [eexists; split; [reflexivity|cbn; lia]|].
  eexists; split; [reflexivity|cbn; lia].
Qed.

(** ** Further properties of the methods *)

(** *** Connecting *)

Lemma connect_cases up :
  match connect up with
  | Done None up' =>
      stat up' = StatConnected /\
      exists c, serverConn up' = Some c /\ serverReader up' = Some (inbound c)
  | Done (Some _) up' =>
      stat up' = StatDisconnected /\ serverConn up' = None /\
      serverReader up' = serverReader up
  | Panic up' =>
      up' = set_stat StatConnecting up /\
      (config up = None \/
       exists cfg, config up = Some cfg /\
         (poolIndex up < 0 \/ Pools cfg !! Z.to_nat (poolIndex up) = None))
  | Blocked _ | OutOfFuel _ => False
  end.
Proof.
  unfold connect, config_pool, deref_config, bind, modify, get, ret, panic.
  cbn [config set_stat poolIndex].
  destruct (config up) as [cfg|] eqn:Hcfg; cbn;
    [|split; [reflexivity | left; reflexivity]].
  destruct (poolIndex up <? 0) eqn:Hneg; cbn.
  { split; [reflexivity|]. right. exists cfg. split; [reflexivity|].
    left. apply Z.ltb_lt, Hneg. }
  destruct (Pools cfg !! Z.to_nat (poolIndex up)) as [pool|] eqn:Hpool; cbn.
  - destruct (DialTimeout _) as [c|err]; cbn.
    + split; [reflexivity|]. exists c. split; reflexivity.
    + repeat split.
  - split; [reflexivity|]. right. exists cfg. split; [reflexivity|]. right. exact Hpool.
Qed.

(** X1. What [connect] can do.  It returns nil exactly with the status
    [StatConnected], a connection and a reader over that connection's
    stream; it returns an error exactly with the status
    [StatDisconnected] and a nil connection, the reader left as it was; and
    it panics only for want of a pool (a nil configuration or an index out
    of range), leaving the status at [StatConnecting]. *)
Theorem connect_outcome up :
  match connect up with
  | Done None up' =>
      stat up' = StatConnected /\
      exists c, serverConn up' = Some c /\ serverReader up' = Some (inbound c)
  | Done (Some _) up' =>
      stat up' = StatDisconnected /\ serverConn up' = None /\
      serverReader up' = serverReader up
  | Panic up' =>
      up' = set_stat StatConnecting up /\
      (config up = None \/
       exists cfg, config up = Some cfg /\
         (poolIndex up < 0 \/ Pools cfg !! Z.to_nat (poolIndex up) = None))
  | Blocked _ | OutOfFuel _ => False
  end.
Proof. exact (connect_cases up). Qed.

(** *** Sending the requests *)

Lemma writeJSONRequestToServer_unusable jsonData up :
  unusable (stat up) = true ->
  writeJSONRequestToServer jsonData up = Done (0, Some ErrConnectionClosed) up.
Proof.
  intros H. unfold writeJSONRequestToServer, bind, get. unfold unusable in H.
  rewrite H. reflexivity.
Qed.

Lemma writeJSONRequestToServer_healthy jsonData up c :
  unusable (stat up) = false ->
  serverConn up = Some c ->
  healthy c ->
  snd (ToJSONBytesLine jsonData) = None ->
  writeJSONRequestToServer jsonData up
  = Done (Z.of_nat (length (fst (ToJSONBytesLine jsonData))), None)
      (set_serverConn (Some (wrote [fst (ToJSONBytesLine jsonData)] c)) up).
Proof.
  intros Hs Hc [Hopen Herr] Henc.
  unfold writeJSONRequestToServer, bind, get. unfold unusable in Hs. rewrite Hs.
  destruct (ToJSONBytesLine jsonData) as [bytes e]. cbn in Henc |- *. subst e.
  unfold serverConn_Write. rewrite Hc. unfold Conn_Write, wrote.
  destruct c as [addr inb werrs out cl]. cbn in Hopen, Herr |- *. subst cl werrs.
  reflexivity.
Qed.

Lemma wrote_healthy lines c : healthy c -> healthy (wrote lines c).
Proof. intros H. exact H. Qed.

Lemma wrote_wrote l1 l2 c : wrote l2 (wrote l1 c) = wrote (l1 ++ l2) c.
Proof. unfold wrote. cbn. rewrite app_assoc. reflexivity. Qed.

Lemma initSendRequest_healthy up c :
  unusable (stat up) = false ->
  serverConn up = Some c ->
  healthy c ->
  (forall request, snd (ToJSONBytesLine request) = None) ->
  initSendRequest up
  = Done None
      (set_serverConn
         (Some (wrote [fst (ToJSONBytesLine subscribeRequest);
                       fst (ToJSONBytesLine configureRequest);
                       fst (ToJSONBytesLine capabilitiesRequest);
                       fst (ToJSONBytesLine (authorizeRequest (subAccount up)))] c)) up).
Proof.
  intros Hs Hc Hh Henc.
  unfold initSendRequest. cbv zeta.
  change (bool_decide (@None error <> None)) with false. cbv iota.
  unfold SetParam. cbn [reqID reqMethod reqParams].
  fold subscribeRequest. fold configureRequest. fold capabilitiesRequest.
  erewrite bind_Done;
    [|apply (writeJSONRequestToServer_healthy _ _ c); auto].
  erewrite bind_Done;
    [|eapply writeJSONRequestToServer_healthy; [exact Hs|reflexivity|apply wrote_healthy, Hh|auto]].
  erewrite bind_Done;
    [|eapply writeJSONRequestToServer_healthy; [exact Hs|reflexivity|apply wrote_healthy, Hh|auto]].
  erewrite bind_Done; [|reflexivity].
  cbn [subAccount set_serverConn].
  fold (authorizeRequest (subAccount up)).
  erewrite bind_Done;
    [|eapply writeJSONRequestToServer_healthy; [exact Hs|reflexivity|apply wrote_healthy, Hh|auto]].
  rewrite !wrote_wrote. reflexivity.
Qed.

(** X2. On a session whose status allows writing and whose connection is
    open with no write failure pending, and with an encoder that does not
    fail, [initSendRequest] writes the four handshake requests, each as one
    encoded line, in the order subscribe, configure, capabilities,
    authorize (the last with the session's sub-account and an empty
    password); it returns nil and changes nothing but the connection. *)
Theorem initSendRequest_writes_four up c :
  unusable (stat up) = false ->
  serverConn up = Some c ->
  healthy c ->
  (forall request, snd (ToJSONBytesLine request) = None) ->
  initSendRequest up
  = Done None
      (set_serverConn
         (Some (wrote [fst (ToJSONBytesLine subscribeRequest);
                       fst (ToJSONBytesLine configureRequest);
                       fst (ToJSONBytesLine capabilitiesRequest);
                       fst (ToJSONBytesLine (authorizeRequest (subAccount up)))] c)) up).
Proof. exact (initSendRequest_healthy up c). Qed.

(** X3. On a session that is connecting or disconnected, with or without
    a connection, [initSendRequest] writes nothing: every send is refused
    with [ErrConnectionClosed] before the connection is touched, the
    refusals are dropped, and the method returns nil with the session
    exactly as it was. *)
Theorem initSendRequest_unusable up :
  unusable (stat up) = true ->
  initSendRequest up = Done None up /\
  forall jsonData,
    writeJSONRequestToServer jsonData up = Done (0, Some ErrConnectionClosed) up.
Proof.
  intros Hs. split; [|intros; apply writeJSONRequestToServer_unusable, Hs].
  unfold initSendRequest. cbv zeta.
  change (bool_decide (@None error <> None)) with false. cbv iota.
  do 3 (erewrite bind_Done; [|apply writeJSONRequestToServer_unusable, Hs]).
  erewrite bind_Done; [|reflexivity].
  erewrite bind_Done; [|apply writeJSONRequestToServer_unusable, Hs].
  reflexivity.
Qed.

(** *** Closing *)

(** X4. [close] is idempotent: closing twice leaves the session, and
    gives the outcome, that closing once does.  On a session that never had
    a connection both panic on the nil connection, after the status was
    set. *)
Theorem close_idempotent up :
  (close ;;; close) up = close up /\
  match close up with
  | Done _ up' =>
      stat up' = StatDisconnected /\ (closed <$> serverConn up') = Some true
  | Panic up' => serverConn up = None /\ up' = set_stat StatDisconnected up
  | Blocked _ | OutOfFuel _ => False
  end.
Proof.
  unfold close, bind, modify, serverConn_Close. cbn [serverConn set_stat].
  destruct (serverConn up) as [c|]; cbn; auto.
Qed.

(** *** The address for the log *)

Lemma config_pool_found up cfg pool :
  config up = Some cfg ->
  0 <= poolIndex up ->
  Pools cfg !! Z.to_nat (poolIndex up) = Some pool ->
  config_pool up = Done pool up.
Proof.
  intros Hcfg Hidx Hpool.
  unfold config_pool, deref_config, bind, get. rewrite Hcfg.
  destruct (poolIndex up <? 0) eqn:Hneg; [apply Z.ltb_lt in Hneg; lia|].
  rewrite Hpool. reflexivity.
Qed.

(** X5. [IP] after [connect]: when the dial succeeded it is the
    connection's remote address; when the dial failed it is the configured
    host and port, the very string that was dialled.  [IP] leaves the
    session as it was. *)
Theorem IP_after_connect up cfg pool :
  config up = Some cfg ->
  0 <= poolIndex up ->
  Pools cfg !! Z.to_nat (poolIndex up) = Some pool ->
  let url := Sprintf_host_port (Host pool) (Port pool) in
  match DialTimeout url with
  | inl c => (connect ;;; IP) up = Done (remoteAddr c) (session_of (connect up))
  | inr _ => (connect ;;; IP) up = Done url (session_of (connect up))
  end.
Proof.
  intros Hcfg Hidx Hpool url.
  assert (Hconnect : connect up
    = match DialTimeout url with
      | inl c => Done None (set_stat StatConnected
                   (set_serverReader (Some (inbound c))
                      (set_serverConn (Some c) (set_stat StatConnecting up))))
      | inr err => Done (Some err) (set_stat StatDisconnected
                     (set_serverConn None (set_stat StatConnecting up)))
      end).
  { unfold connect. erewrite bind_Done; [|reflexivity].
    erewrite bind_Done; [|apply (config_pool_found _ cfg pool); assumption].
    fold url. destruct (DialTimeout url); reflexivity. }
  destruct (DialTimeout url) as [c|err];
    (erewrite bind_Done; [|exact Hconnect]); rewrite Hconnect; cbn [session_of];
    [reflexivity|].
  unfold IP. erewrite bind_Done; [|reflexivity]. cbn [serverConn set_stat set_serverConn].
  erewrite bind_Done; [reflexivity|].
  apply (config_pool_found _ cfg pool); assumption.
Qed.

(** *** The handlers, on every input *)

(** X6. [handleSetVersionMask] is never fatal.  On a session that holds
    its connection it always returns, with the status and the connection as
    they were; when the first parameter is a hex string of at most 32 bits
    the mask becomes that value, and for every other request (no
    parameter, a parameter that is not a string, a string that is not hex or
    is too large) the session is left exactly as it was. *)
Theorem handleSetVersionMask_outcome rpcData jsonBytes up c :
  serverConn up = Some c ->
  handleSetVersionMask rpcData jsonBytes up
  = Done tt match version_mask_of (Params rpcData) with
            | Some mask => set_versionMask mask up
            | None => up
            end.
Proof.
  intros Hc. unfold handleSetVersionMask, version_mask_of.
  destruct (Params rpcData) as [|p params]; [reflexivity|].
  cbn [length Nat.ltb Nat.leb lookup list_lookup].
  change ((0 <? S (length params))%nat) with true. cbv iota.
  destruct p; try apply (glog_IP_conn up c Hc).
  destruct (strconv.ParseUint16 s 32) as [mask [e|]] eqn:Hparse;
    [apply (glog_IP_conn up c Hc)|].
  rewrite (uint32_ParseUint16 _ _ Hparse).
  erewrite bind_Done; [|reflexivity].
  apply (glog_IP_conn _ c). exact Hc.
Qed.

Lemma handleSubScribeResponse_cases rpcData jsonBytes up c :
  serverConn up = Some c ->
  match subscribe_decoded (Result rpcData) with
  | Some (sid, w) =>
      handleSubScribeResponse rpcData jsonBytes up
      = if w <? 6
        then Done tt (set_serverConn (Some (Conn_Close c))
                        (set_stat StatDisconnected
                           (set_extraNonce2Size w (set_sessionID sid up))))
        else Done tt (set_stat StatSubScribed
                        (set_extraNonce2Size w (set_sessionID sid up)))
  | None =>
      exists up',
        handleSubScribeResponse rpcData jsonBytes up = Done tt up' /\
        stat up' = StatDisconnected /\
        serverConn up' = Some (Conn_Close c) /\
        extraNonce2Size up' = extraNonce2Size up
  end.
Proof.
  intros Hc.
  assert (Hclose : forall u, serverConn u = Some c ->
            (glog_IP ;;; close) u
            = Done tt (set_serverConn (Some (Conn_Close c)) (set_stat StatDisconnected u)))
    by (intros u Hu; apply glog_close_conn, Hu).
  unfold subscribe_decoded.
    destruct (Result rpcData) as [| | | | |result|] eqn:HR;
      try (eexists; split; [unfold handleSubScribeResponse; rewrite HR; apply Hclose, Hc|];
           repeat split).
    destruct (result !! 1%nat) as [v1|] eqn:H1.
    2:{ eexists. split; [|split; [|split]].
        - unfold handleSubScribeResponse. rewrite HR.
          apply lookup_ge_None in H1.
          destruct (length result <? 3)%nat eqn:Hlen; [|apply Nat.ltb_ge in Hlen; lia].
          apply Hclose, Hc.
        - reflexivity.
        - reflexivity.
        - reflexivity. }
    destruct (result !! 2%nat) as [v2|] eqn:H2.
    2:{ assert (Hshort : handleSubScribeResponse rpcData jsonBytes up
                         = Done tt (set_serverConn (Some (Conn_Close c))
                                      (set_stat StatDisconnected up))).
        { unfold handleSubScribeResponse. rewrite HR.
          apply lookup_ge_None in H2.
          destruct (length result <? 3)%nat eqn:Hlen; [|apply Nat.ltb_ge in Hlen; lia].
          apply Hclose, Hc. }
        destruct v1; eexists; (split; [exact Hshort|repeat split]). }
    assert (Hlen : (length result <? 3)%nat = false).
    { apply Nat.ltb_ge. apply lookup_lt_Some in H2. lia. }
    destruct v1 as [| | | |hex| |];
      try (eexists; split;
           [unfold handleSubScribeResponse; rewrite HR, Hlen, H1; apply Hclose, Hc|];
           repeat split).
    destruct (strconv.ParseUint16 hex 32) as [sid [e|]] eqn:Hsid.
    { destruct v2; eexists;
        (split; [unfold handleSubScribeResponse; rewrite HR, Hlen, H1, Hsid;
                 apply Hclose, Hc|]; repeat split). }
    destruct v2 as [| |f| | | |];
      try (eexists; split;
           [unfold handleSubScribeResponse; rewrite HR, Hlen, H1, Hsid;
            rewrite (uint32_ParseUint16 _ _ Hsid);
            erewrite bind_Done; [|reflexivity]; rewrite H2; apply Hclose, Hc|];
           repeat split).
    rewrite (handleSubScribeResponse_decoded _ _ _ _ _ _ _ HR H1 Hsid H2). cbv zeta.
    destruct (int_of_float64 f <? 6); [|reflexivity].
    apply Hclose, Hc.
Qed.


Lemma note_capabilities_flags caps : forall up,
  note_capabilities caps up
  = set_serverCapsSubRes (serverCapsSubRes up || has_capability "subres" caps)
      (set_serverCapsVerRol (serverCapsVerRol up || has_capability "verrol" caps) up).
Proof.
  induction caps as [|capability caps IH]; intros up.
  - cbn. rewrite !orb_false_r. destruct up; reflexivity.
  - unfold note_capabilities in *. cbn [fold_left]. rewrite IH.
    unfold note_capability, has_capability. cbn [existsb].
    destruct capability as [| | | |s| |]; try (cbn; reflexivity).
    destruct (String.eqb s "verrol") eqn:Hv.
    + apply String.eqb_eq in Hv. subst s. cbn. rewrite !orb_true_r. reflexivity.
    + destruct (String.eqb s "subres") eqn:Hs; cbn; [rewrite !orb_true_r|]; reflexivity.
Qed.


(** *** Reading units off the stream *)


Lemma ReadBytes_found delim r : forall line r',
  bufio.ReadBytes delim r = ((line, None), r') ->
  exists body, line = body ++ [delim] /\ r = body ++ delim :: r' /\
               has_byte delim body = false.
Proof.
  induction r as [|b r IH]; intros line r'; cbn [bufio.ReadBytes]; [discriminate|].
  destruct (Byte.eqb b delim) eqn:Hb.
  - intros [= <- <-]. apply Byte.byte_dec_bl in Hb. subst b.
    exists []. repeat split.
  - destruct (bufio.ReadBytes delim r) as [[line0 err0] rest0].
    intros [= <- -> <-]. destruct (IH _ _ eq_refl) as (body & -> & -> & Hbody).
    exists (b :: body). repeat split. cbn [has_byte existsb]. rewrite Hb. exact Hbody.
Qed.


(** X10. The lines [initReadLine] ignores.  A line that decodes to a
    pool request other than [mining.set_version_mask] (a notify, a
    set-difficulty, any unknown method), whatever identifier and result it
    carries, or to a response whose identifier is "conf", is not a string or
    is none of "sub", "caps" and "auth", is consumed and changes nothing
    else in the session; no connection is needed for that. *)
Theorem initReadLine_ignored up body rest rpcData :
  serverReader up = Some (body ++ x0a :: rest) ->
  has_byte x0a body = false ->
  NewJSONRPCLine (body ++ [x0a]) = inl rpcData ->
  ignored rpcData = true ->
  initReadLine up = Done tt (set_serverReader (Some rest) up).
Proof.
  intros Hr Hbody Hdec Hign.
  unfold initReadLine. unfold bind at 1. unfold serverReader_ReadBytes.
  rewrite Hr, (ReadBytes_line _ _ _ Hbody), Hdec. cbv beta iota.
  unfold ignored in Hign.
  destruct (0 <? String.length (Method rpcData))%nat.
  - apply negb_true_iff in Hign. rewrite Hign.
    repeat case_match; reflexivity.
  - destruct (ID rpcData) as [| | | |id| |]; try reflexivity.
    apply andb_true_iff in Hign as [Hign Hauth].
    apply andb_true_iff in Hign as [Hsub Hcaps].
    apply negb_true_iff in Hsub, Hcaps, Hauth. rewrite Hsub, Hcaps, Hauth.
    destruct (String.eqb id "conf"); reflexivity.
Qed.

(** X11. The response loop ends.  A turn that returns leaves the
    session disconnected or with fewer unread bytes than before; so one
    more turn than there are unread bytes always suffices, any larger
    number of turns gives the same outcome, and the loop never gives up for
    want of turns. *)
Theorem initResponses_terminates up :
  advances up (initHandleResponse up) /\
  (forall fuel, (unread up < fuel)%nat -> initLoop fuel up = initResponses up) /\
  (forall up', initResponses up <> OutOfFuel up').
Proof.
  split; [apply initHandleResponse_advances|].
  split; [|apply initResponses_total].
  intros fuel Hfuel. unfold initResponses. apply initLoop_fuel; lia.
Qed.

(** *** Where the handshake can end *)

Lemma preserves_Done {A : Type} (P : UpSession -> Prop) (m : M A) up a up' :
  preserves P m -> P up -> m up = Done a up' -> P up'.
Proof. intros Hm HP Hrun. specialize (Hm up HP). rewrite Hrun in Hm. exact Hm. Qed.

(** Settles a write for a property of the form "the status is not [s]". *)
Ltac status_field :=
  unfold stat_is_not in *; cbn; first [assumption | discriminate | congruence].

Lemma serverReader_ReadBytes_stat s delim :
  preserves (stat_is_not s) (serverReader_ReadBytes delim).
Proof. apply serverReader_ReadBytes_preserves. intros; status_field. Qed.

Lemma serverReader_Discard_stat s n :
  preserves (stat_is_not s) (serverReader_Discard n).
Proof. apply serverReader_Discard_preserves. intros; status_field. Qed.

Lemma handleSubScribeResponse_stat s rpcData jsonBytes :
  s <> StatSubScribed -> s <> StatDisconnected ->
  preserves (stat_is_not s) (handleSubScribeResponse rpcData jsonBytes).
Proof. intros H1 H2. unfold handleSubScribeResponse. preserves_methods status_field. Qed.


Lemma initReadExMessage_stat s :
  s <> StatDisconnected -> preserves (stat_is_not s) initReadExMessage.
Proof.
  intros H. pose proof (serverReader_ReadBytes_stat s) as HR.
  pose proof (serverReader_Discard_stat s) as HD.
  unfold initReadExMessage. preserves_methods status_field.
Qed.




Lemma handleAuthorizeResponse_true rpcData jsonBytes up c :
  serverConn up = Some c ->
  Result rpcData = JBool true ->
  handleAuthorizeResponse rpcData jsonBytes up = Done tt (set_stat StatAuthorized up).
Proof.
  intros Hc HR. unfold handleAuthorizeResponse. rewrite HR. cbn [negb orb].
  unfold bind at 1. rewrite (glog_IP_conn up c Hc). reflexivity.
Qed.

(** X13. The authorize response alone authorizes.  When the next line of
    a running response loop decodes to a response with the identifier
    "auth" and the result [true], the session becomes authorized and the
    loop ends there with the rest of the stream unread, whether or not a
    subscribe, configure or capabilities response was seen before: the
    status may still be [StatConnected]. *)
Theorem initResponses_authorize_first up c body rest rpcData :
  serverConn up = Some c ->
  serverReader up = Some (body ++ x0a :: rest) ->
  has_byte x0a body = false ->
  starts_ExMessage (body ++ x0a :: rest) = false ->
  NewJSONRPCLine (body ++ [x0a]) = inl rpcData ->
  Method rpcData = "" ->
  ID rpcData = JString "auth" ->
  Result rpcData = JBool true ->
  loopCond (stat up) = true ->
  initResponses up
  = Done tt (set_stat StatAuthorized (set_serverReader (Some rest) up)).
Proof.
  intros Hc Hr Hbody Hmagic Hdec HM HID HR Hloop.
  assert (Hline : initReadLine up
                  = Done tt (set_stat StatAuthorized (set_serverReader (Some rest) up))).
  { unfold initReadLine. unfold bind at 1. unfold serverReader_ReadBytes.
    rewrite Hr, (ReadBytes_line _ _ _ Hbody), Hdec. cbv beta iota.
    rewrite HM, HID. cbn [String.length Nat.ltb Nat.leb].
    change (String.eqb "auth" "sub") with false.
    change (String.eqb "auth" "conf") with false.
    change (String.eqb "auth" "caps") with false.
    change (String.eqb "auth" "auth") with true. cbv iota.
    apply (handleAuthorizeResponse_true _ _ _ c); [exact Hc | exact HR]. }
  unfold initResponses. cbn [initLoop]. rewrite Hloop. unfold bind.
  assert (Hresp : initHandleResponse up
                  = Done tt (set_stat StatAuthorized (set_serverReader (Some rest) up))).
  { unfold initHandleResponse. unfold bind at 1. unfold serverReader_Peek1.
    rewrite Hr. destruct body as [|b body]; cbn in Hmagic |- *;
      rewrite Hmagic; exact Hline. }
  rewrite Hresp. apply initLoop_stop. reflexivity.
Qed.

(** X14. Nothing but an authorize response with the result [true]
    authorizes.  When a turn of the response loop returns with the status
    [StatAuthorized] and the status was not that before, the turn has read
    a line off the stream that decoded to a response (no method) with the
    identifier "auth" and the boolean result [true]. *)
Theorem initHandleResponse_authorized_only_by_auth up up' :
  initHandleResponse up = Done tt up' ->
  stat up <> StatAuthorized ->
  stat up' = StatAuthorized ->
  exists body rest rpcData,
    serverReader up = Some (body ++ x0a :: rest) /\
    has_byte x0a body = false /\
    NewJSONRPCLine (body ++ [x0a]) = inl rpcData /\
    Method rpcData = "" /\
    ID rpcData = JString "auth" /\
    Result rpcData = JBool true /\
    serverReader up' = Some rest.
Proof.
  intros Hrun Hbefore Hafter.
  set (P := stat_is_not StatAuthorized).
  assert (HPup : P up) by exact Hbefore.
  assert (Hno : forall (m : M unit) u, preserves P m -> P u -> m u = Done tt up' -> False).
  { intros m u Hm Hu Hmu. apply (preserves_Done P m u tt up' Hm Hu Hmu). exact Hafter. }
  pose proof (serverReader_ReadBytes_stat StatAuthorized) as HRB.
  pose proof (initReadExMessage_stat StatAuthorized ltac:(discriminate)) as HE.
  pose proof (fun rpcData jsonBytes =>
                handleSubScribeResponse_stat StatAuthorized rpcData jsonBytes
                  ltac:(discriminate) ltac:(discriminate)) as HS.
  fold P in HRB, HE, HS.
  unfold initHandleResponse in Hrun. unfold bind at 1 in Hrun.
  unfold serverReader_Peek1 in Hrun.
  destruct (serverReader up) as [r|] eqn:Hr; [|discriminate Hrun].
  destruct r as [|b r]; cbn [bufio.Peek1] in Hrun; cbv beta iota in Hrun.
  { exfalso. refine (Hno _ _ _ HPup Hrun); preserves_methods status_field. }
  cbn [lookup list_lookup] in Hrun.
  destruct (Byte.eqb b ExMessageMagicNumber).
  { exfalso. apply (Hno _ _ HE HPup Hrun). }
  unfold initReadLine in Hrun. unfold bind at 1 in Hrun.
  unfold serverReader_ReadBytes in Hrun. rewrite Hr in Hrun.
  destruct (bufio.ReadBytes x0a (b :: r)) as [[jsonBytes [e|]] r'] eqn:Hread;
    cbv beta iota in Hrun.
  { exfalso. refine (Hno _ (set_serverReader (Some r') up) _ HPup Hrun);
      preserves_methods status_field. }
  destruct (ReadBytes_found _ _ _ _ Hread) as (body & -> & Hsplit & Hbody).
  assert (HP1 : P (set_serverReader (Some r') up)) by exact HPup.
  destruct (NewJSONRPCLine (body ++ [x0a])) as [rpcData|err] eqn:Hdec.
  2:{ exfalso. refine (Hno _ _ _ HP1 Hrun); preserves_methods status_field. }
  destruct (0 <? String.length (Method rpcData))%nat eqn:HM.
  { exfalso. refine (Hno _ _ _ HP1 Hrun). preserves_methods status_field. }
  destruct (ID rpcData) as [| | | |id| |] eqn:HID;
    try solve [exfalso; refine (Hno _ _ _ HP1 Hrun); preserves_methods status_field].
  destruct (String.eqb id "sub");
    [exfalso; apply (Hno _ _ (HS _ _) HP1 Hrun)|].
  destruct (String.eqb id "conf");
    [exfalso; refine (Hno _ _ _ HP1 Hrun); preserves_methods status_field|].
  destruct (String.eqb id "caps");
    [exfalso; refine (Hno _ _ _ HP1 Hrun); preserves_methods status_field|].
  destruct (String.eqb id "auth") eqn:Hauth;
    [|exfalso; refine (Hno _ _ _ HP1 Hrun); preserves_methods status_field].
  apply String.eqb_eq in Hauth. subst id.
  assert (Hmethod : Method rpcData = "").
  { destruct (Method rpcData); [reflexivity|discriminate HM]. }
  assert (HR : Result rpcData = JBool true).
  { destruct (Result rpcData) as [|[|]| | | | |] eqn:HRes; try reflexivity; exfalso;
      unfold handleAuthorizeResponse in Hrun; rewrite HRes in Hrun; cbn [negb orb] in Hrun;
      refine (Hno _ _ _ HP1 Hrun); preserves_methods status_field. }
  exists body, r', rpcData. rewrite Hsplit.
  repeat split; try assumption; try reflexivity.
  unfold handleAuthorizeResponse in Hrun. rewrite HR in Hrun. cbn [negb orb] in Hrun.
  assert (Hrd : preserves (fun u => serverReader u = Some r')
                  (glog_IP ;;; modify (set_stat StatAuthorized)))
    by (preserves_methods ltac:(assumption)).
  exact (preserves_Done (fun u => serverReader u = Some r') _
           (set_serverReader (Some r') up) tt up' Hrd eq_refl Hrun).
Qed.

(** *** Attaching downstream sessions *)

(** X15. [addStratumSession] stores the session under its own
    identifier and touches no other entry: afterwards the identifier maps to
    the session, every other identifier maps to what it did, and the map has
    grown by one entry when the identifier was free and kept its size when
    an entry was replaced.  Nothing but the map changes.  A nil session
    panics with the session untouched. *)
Theorem addStratumSession_map up session :
  let id := StratumSession.sessionID session in
  let up' := set_stratumSessions (<[id := session]> (stratumSessions up)) up in
  addStratumSession (Some session) up = Done tt up' /\
  stratumSessions up' !! id = Some session /\
  (forall k, k <> id -> stratumSessions up' !! k = stratumSessions up !! k) /\
  (stratumSessions up !! id = None ->
   size (stratumSessions up') = S (size (stratumSessions up))) /\
  (is_Some (stratumSessions up !! id) ->
   size (stratumSessions up') = size (stratumSessions up)) /\
  addStratumSession None up = Panic up.
Proof.
  intros id up'. split; [reflexivity|]. cbn [stratumSessions up' set_stratumSessions].
  split; [apply lookup_insert_eq|].
  split; [intros k Hk; apply lookup_insert_ne; congruence|].
  split; [apply map_size_insert_None|].
  split; [|reflexivity].
  intros [old Hold]. rewrite map_size_insert, Hold. reflexivity.
Qed.

(** X16. Two attachments.  After attaching [s1] and then [s2]: with
    distinct identifiers both sessions are in the map, which holds two
    entries more than before when both identifiers were free; with the same
    identifier the second session has replaced the first, and the map is the
    one that attaching [s2] alone gives. *)
Theorem addStratumSession_twice up s1 s2 :
  let id1 := StratumSession.sessionID s1 in
  let id2 := StratumSession.sessionID s2 in
  exists up',
    (addStratumSession (Some s1) ;;; addStratumSession (Some s2)) up = Done tt up' /\
    stratumSessions up' !! id2 = Some s2 /\
    (id1 <> id2 ->
     stratumSessions up' !! id1 = Some s1 /\
     (stratumSessions up !! id1 = None -> stratumSessions up !! id2 = None ->
      size (stratumSessions up') = S (S (size (stratumSessions up))))) /\
    (id1 = id2 ->
     stratumSessions up' = <[id2 := s2]> (stratumSessions up)).
Proof.
  intros id1 id2. eexists. split; [reflexivity|].
  cbn [stratumSessions set_stratumSessions]. fold id1 id2.
  split; [apply lookup_insert_eq|]. split.
  - intros Hne. split.
    + rewrite lookup_insert_ne by congruence. apply lookup_insert_eq.
    + intros H1 H2. rewrite map_size_insert_None.
      * rewrite map_size_insert_None by exact H1. reflexivity.
      * rewrite lookup_insert_ne by congruence. exact H2.
  - intros ->. apply insert_insert_eq.
Qed.

Lemma handleEvents_run cap events : forall up,
  existsb nil_attach events = false ->
  exists up',
    handleEvents cap events up = Blocked up' /\
    stratumSessions up' = attach_all events (stratumSessions up) /\
    stat up' = stat up /\
    (events <> [] -> eventChannel up' = Some {| chanCap := cap; chanBuf := [] |}) /\
    (events = [] -> up' = up).
Proof.
  induction events as [|event events IH]; intros up Hnil.
  - exists up. repeat split. intros H. contradiction.
  - cbn [existsb] in Hnil. apply orb_false_iff in Hnil as [Hevent Hnil].
    cbn [handleEvents]. erewrite bind_Done; [|reflexivity].
    set (up1 := set_eventChannel _ up).
    assert (Hstep : exists up2,
      (match event with
       | EventAddStratumSession e => addStratumSession e
       | EventUnknown => ret tt
       end) up1 = Done tt up2 /\
      stratumSessions up2 = attach_all [event] (stratumSessions up) /\
      stat up2 = stat up /\
      eventChannel up2 = Some {| chanCap := cap; chanBuf := events |}).
    { destruct event as [[session|]|]; [| discriminate Hevent |];
        eexists; (split; [reflexivity|]); repeat split. }
    destruct Hstep as (up2 & Hrun & Hmap & Hstat & Hch).
    erewrite bind_Done; [|exact Hrun].
    destruct (IH up2 Hnil) as (up' & Hrest & Hmap' & Hstat' & Hch' & Hsame).
    exists up'. split; [exact Hrest|].
    split; [rewrite Hmap', Hmap; reflexivity|].
    split; [congruence|]. split; [|discriminate].
    intros _. destruct events as [|e events].
    + rewrite (Hsame eq_refl). exact Hch.
    + apply Hch'. discriminate.
Qed.

(** X17. The event loop never returns, and handles what is queued in
    order.  [handleEvent] (and [Run], which is [handleEvent]) ends in no
    case with a normal return: it blocks or panics.  On a channel whose
    queued events carry no nil session it handles every event in turn:
    attach events store their sessions in queue order, later ones
    replacing earlier ones with the same identifier, unknown events change
    nothing; then, the queue empty, it blocks with the status as it was. *)
Theorem handleEvent_drains up :
  is_Done (handleEvent up) = false /\
  is_Done (Run up) = false /\
  (forall ch,
     eventChannel up = Some ch ->
     existsb nil_attach (chanBuf ch) = false ->
     exists up',
       Run up = Blocked up' /\
       stratumSessions up' = attach_all (chanBuf ch) (stratumSessions up) /\
       stat up' = stat up /\
       (chanBuf <$> eventChannel up') = Some []).
Proof.
  assert (Hnever : is_Done (handleEvent up) = false).
  { unfold handleEvent. destruct (eventChannel up) as [ch|]; [|reflexivity].
    generalize (chanCap ch) as cap. generalize up as u.
    induction (chanBuf ch) as [|event events IH]; intros u cap; [reflexivity|].
    cbn [handleEvents]. unfold bind at 1. unfold modify at 1.
    unfold bind at 1.
    destruct (match event with
              | EventAddStratumSession e => addStratumSession e
              | EventUnknown => ret tt
              end _) as [[] u1| | |]; try reflexivity.
    apply IH. }
  split; [exact Hnever|]. split; [exact Hnever|].
  intros ch Hch Hnil. unfold Run, handleEvent. rewrite Hch.
  destruct (handleEvents_run (chanCap ch) (chanBuf ch) up Hnil)
    as (up' & Hrun & Hmap & Hstat & Hfull & Hempty).
  exists up'. split; [exact Hrun|]. split; [exact Hmap|]. split; [exact Hstat|].
  destruct (chanBuf ch) as [|e events] eqn:Hbuf.
  - rewrite (Hempty eq_refl), Hch. cbn. rewrite Hbuf. reflexivity.
  - rewrite Hfull by discriminate. reflexivity.
Qed.

(** *** The Ex-Message frame, as it is read *)

Lemma log2_small a n : 0 <= a < 2 ^ n -> 0 < n -> Z.log2 a < n.
Proof.
  intros [H0 H1] Hn. destruct (Z.eq_dec a 0) as [->|Hnz]; [cbn; lia|].
  apply Z.log2_lt_pow2; lia.
Qed.
Lemma Uint16_bound b v : Uint16 b = Some v -> 0 <= v < 2 ^ 16.
Proof.
  destruct b as [|b0 [|b1 b]]; try discriminate. unfold Uint16. intros H.
  assert (Hv : v = Z.lor (Z.of_N (Byte.to_N b0)) (Z.shiftl (Z.of_N (Byte.to_N b1)) 8))
    by congruence.
  clear H.
  assert (H0 : 0 <= Z.of_N (Byte.to_N b0) < 2 ^ 8).
  { pose proof (Byte.to_N_bounded b0). change (2 ^ 8) with 256. lia. }
  assert (H1 : 0 <= Z.of_N (Byte.to_N b1) < 2 ^ 8).
  { pose proof (Byte.to_N_bounded b1). change (2 ^ 8) with 256. lia. }
  assert (Hs : 0 <= Z.shiftl (Z.of_N (Byte.to_N b1)) 8 < 2 ^ 16).
  { rewrite Z.shiftl_mul_pow2 by lia. change (2 ^ 16) with (2 ^ 8 * 2 ^ 8). nia. }
  assert (Hnn : 0 <= Z.lor (Z.of_N (Byte.to_N b0)) (Z.shiftl (Z.of_N (Byte.to_N b1)) 8))
    by (apply Z.lor_nonneg; lia).
  rewrite <- Hv in Hnn. split; [exact Hnn|].
  destruct (Z.eq_dec v 0) as [Hz|Hnz]; [rewrite Hz; reflexivity|].
  apply Z.log2_lt_pow2; [lia|]. rewrite Hv, Z.log2_lor by lia.
  apply Z.max_lub_lt.
  - assert (Z.log2 (Z.of_N (Byte.to_N b0)) < 8) by (apply log2_small; lia). lia.
  - apply log2_small; lia.
Qed.

(** X18. How [initReadExMessage] frames the stream.  The header it
    reads runs up to the first byte 4 of the stream, not over four bytes;
    the length is the little-endian value of stream bytes 2 and 3; and the
    bytes it then skips, length minus 4 of them, are counted from behind
    that first byte 4.  When the header so read is at least four bytes long,
    the length is at least 4 and that many bytes are there, the method
    returns with exactly those bytes consumed and nothing else changed. *)
Theorem initReadExMessage_frame up pre rest len :
  serverReader up = Some (pre ++ x04 :: rest) ->
  has_byte x04 pre = false ->
  Uint16 (drop 2 (pre ++ [x04])) = Some len ->
  4 <= len ->
  (Z.to_nat (len - 4) <= length rest)%nat ->
  initReadExMessage up
  = Done tt (set_serverReader (Some (drop (Z.to_nat (len - 4)) rest)) up).
Proof.
  intros Hr Hpre Hlen Hge Hrest.
  pose proof (Uint16_bound _ _ Hlen) as Hbound.
  assert (Hslice : slice_from 2 (pre ++ [x04]) = Some (drop 2 (pre ++ [x04]))).
  { unfold slice_from.
    destruct (2 <=? length (pre ++ [x04]))%nat eqn:H2; [reflexivity|].
    apply Nat.leb_gt in H2. rewrite drop_ge in Hlen by lia. discriminate Hlen. }
  unfold initReadExMessage. unfold bind at 1. unfold serverReader_ReadBytes.
  rewrite Hr, (ReadBytes_line _ _ _ Hpre). cbv beta iota.
  rewrite Hslice, Hlen.
  destruct (len <? 4) eqn:Hlt; [apply Z.ltb_lt in Hlt; lia|].
  cbv zeta. rewrite (Z.mod_small (len - 4)) by lia.
  destruct (0 <? len - 4) eqn:Hpos.
  - unfold bind at 1. unfold serverReader_Discard.
    cbn [serverReader set_serverReader]. unfold bufio.Discard.
    destruct (len - 4 <? 0) eqn:Hneg; [apply Z.ltb_lt in Hneg; lia|].
    destruct (Z.to_nat (len - 4) <=? length rest)%nat eqn:Hfit;
      [reflexivity|apply Nat.leb_gt in Hfit; lia].
  - apply Z.ltb_ge in Hpos. replace (len - 4) with 0 by lia. reflexivity.
Qed.

(** *** The whole handshake *)

Lemma initResponses_step up up1 :
  loopCond (stat up) = true ->
  initHandleResponse up = Done tt up1 ->
  initResponses up = initResponses up1.
Proof.
  intros Hloop Hrun. pose proof (initHandleResponse_advances up) as Hadv.
  rewrite Hrun in Hadv. unfold initResponses at 1. cbn [initLoop]. rewrite Hloop.
  unfold bind. rewrite Hrun. unfold initResponses.
  destruct Hadv as [Hd|Hlt].
  - rewrite !initLoop_stop; [reflexivity|rewrite Hd; reflexivity..].
  - apply initLoop_fuel; lia.
Qed.

(** A line that decodes to a response goes to the handler its identifier
    names, the line consumed. *)
Lemma initHandleResponse_response up body rest rpcData id :
  serverReader up = Some (body ++ x0a :: rest) ->
  has_byte x0a body = false ->
  starts_ExMessage (body ++ x0a :: rest) = false ->
  NewJSONRPCLine (body ++ [x0a]) = inl rpcData ->
  Method rpcData = "" ->
  ID rpcData = JString id ->
  initHandleResponse up
  = (if String.eqb id "sub" then handleSubScribeResponse rpcData (body ++ [x0a])
     else if String.eqb id "conf" then handleConfigureResponse rpcData (body ++ [x0a])
     else if String.eqb id "caps" then handleGetCapsResponse rpcData (body ++ [x0a])
     else if String.eqb id "auth" then handleAuthorizeResponse rpcData (body ++ [x0a])
     else ret tt) (set_serverReader (Some rest) up).
Proof.
  intros Hr Hbody Hmagic Hdec HM HID.
  unfold initHandleResponse. unfold bind at 1. unfold serverReader_Peek1. rewrite Hr.
  assert (Hline : initReadLine up
    = (if String.eqb id "sub" then handleSubScribeResponse rpcData (body ++ [x0a])
       else if String.eqb id "conf" then handleConfigureResponse rpcData (body ++ [x0a])
       else if String.eqb id "caps" then handleGetCapsResponse rpcData (body ++ [x0a])
       else if String.eqb id "auth" then handleAuthorizeResponse rpcData (body ++ [x0a])
       else ret tt) (set_serverReader (Some rest) up)).
  { unfold initReadLine. unfold bind at 1. unfold serverReader_ReadBytes.
    rewrite Hr, (ReadBytes_line _ _ _ Hbody), Hdec. cbv beta iota.
    rewrite HM, HID. reflexivity. }
  destruct body as [|b body]; cbn in Hmagic |- *; rewrite Hmagic; exact Hline.
Qed.

(** X19. The handshake end to end.  With a pool to dial, a dial that
    gives an open connection, an encoder that does not fail, and a stream
    that carries, in this order, a subscribe response of width 6 or more, a
    capabilities response and an authorize response with the result
    [true], [Init] returns with the session authorized, the session
    identifier and the width stored, each capability flag set when its name
    was offered, the four requests written in order, and the stream read up
    to the end of the authorize line. *)
Theorem Init_handshake up cfg pool c sub caps auth b1 b2 b3 rest sid w :
  config up = Some cfg ->
  0 <= poolIndex up ->
  Pools cfg !! Z.to_nat (poolIndex up) = Some pool ->
  DialTimeout (Sprintf_host_port (Host pool) (Port pool)) = inl c ->
  healthy c ->
  (forall request, snd (ToJSONBytesLine request) = None) ->
  inbound c = (b1 ++ [x0a]) ++ (b2 ++ [x0a]) ++ (b3 ++ [x0a]) ++ rest ->
  has_byte x0a b1 = false /\ starts_ExMessage (b1 ++ [x0a]) = false /\
  NewJSONRPCLine (b1 ++ [x0a]) = inl sub /\
  Method sub = "" /\ ID sub = JString "sub" /\
  subscribe_decoded (Result sub) = Some (sid, w) /\ 6 <= w ->
  has_byte x0a b2 = false /\ starts_ExMessage (b2 ++ [x0a]) = false /\
  NewJSONRPCLine (b2 ++ [x0a]) = inl caps /\
  Method caps = "" /\ ID caps = JString "caps" ->
  has_byte x0a b3 = false /\ starts_ExMessage (b3 ++ [x0a]) = false /\
  NewJSONRPCLine (b3 ++ [x0a]) = inl auth /\
  Method auth = "" /\ ID auth = JString "auth" /\ Result auth = JBool true ->
  exists up',
    Init up = Done tt up' /\
    stat up' = StatAuthorized /\
    sessionID up' = sid /\
    extraNonce2Size up' = w /\
    serverCapsVerRol up'
    = serverCapsVerRol up
      || has_capability "verrol" (default [] (capabilities_of (Result caps))) /\
    serverCapsSubRes up'
    = serverCapsSubRes up
      || has_capability "subres" (default [] (capabilities_of (Result caps))) /\
    serverReader up' = Some rest /\
    serverConn up'
    = Some (wrote [fst (ToJSONBytesLine subscribeRequest);
                   fst (ToJSONBytesLine configureRequest);
                   fst (ToJSONBytesLine capabilitiesRequest);
                   fst (ToJSONBytesLine (authorizeRequest (subAccount up)))] c).
Proof.
  intros Hcfg Hidx Hpool Hdial Hhealthy Henc Hin
    (Hb1 & Hm1 & Hd1 & HM1 & HI1 & HR1 & Hw)
    (Hb2 & Hm2 & Hd2 & HM2 & HI2)
    (Hb3 & Hm3 & Hd3 & HM3 & HI3 & HR3).
  assert (Hstart : forall b tl, starts_ExMessage (b ++ [x0a]) = false ->
                     starts_ExMessage (b ++ x0a :: tl) = false).
  { intros [|b0 b] tl H; exact H. }
  set (lines := [fst (ToJSONBytesLine subscribeRequest);
                 fst (ToJSONBytesLine configureRequest);
                 fst (ToJSONBytesLine capabilitiesRequest);
                 fst (ToJSONBytesLine (authorizeRequest (subAccount up)))]).
  (* connect *)
  set (up1 := set_stat StatConnected
                (set_serverReader (Some (inbound c))
                   (set_serverConn (Some c) (set_stat StatConnecting up)))).
  assert (Hconnect : connect up = Done None up1).
  { unfold connect. erewrite bind_Done; [|reflexivity].
    erewrite bind_Done; [|apply (config_pool_found _ cfg pool); assumption].
    cbv zeta. rewrite Hdial. reflexivity. }
  (* the four requests *)
  set (up2 := set_serverConn (Some (wrote lines c)) up1).
  assert (Hsend : initSendRequest up1 = Done None up2).
  { apply (initSendRequest_healthy up1 c); auto. }
  (* the subscribe response *)
  set (up3 := set_stat StatSubScribed
                (set_extraNonce2Size w
                   (set_sessionID sid
                      (set_serverReader
                         (Some ((b2 ++ [x0a]) ++ (b3 ++ [x0a]) ++ rest)) up2)))).
  assert (Hturn1 : initHandleResponse up2 = Done tt up3).
  { rewrite (initHandleResponse_response up2 b1
               ((b2 ++ [x0a]) ++ (b3 ++ [x0a]) ++ rest) sub "sub");
      try assumption; try (apply Hstart; assumption).
    - change (String.eqb "sub" "sub") with true. cbv iota.
      pose proof (handleSubScribeResponse_cases sub (b1 ++ [x0a])
                    (set_serverReader (Some ((b2 ++ [x0a]) ++ (b3 ++ [x0a]) ++ rest)) up2)
                    (wrote lines c) eq_refl) as Hout.
      rewrite HR1 in Hout. rewrite Hout.
      destruct (w <? 6) eqn:Hlt; [apply Z.ltb_lt in Hlt; lia|reflexivity].
    - cbn [serverReader up2 up1 set_serverConn set_stat set_serverReader].
      rewrite Hin, <- !app_assoc. reflexivity. }
  (* the capabilities response *)
  set (capsArr := default [] (capabilities_of (Result caps))).
  set (up4 := set_serverCapsSubRes (serverCapsSubRes up || has_capability "subres" capsArr)
                (set_serverCapsVerRol
                   (serverCapsVerRol up || has_capability "verrol" capsArr)
                   (set_serverReader (Some ((b3 ++ [x0a]) ++ rest)) up3))).
  assert (Hturn2 : initHandleResponse up3 = Done tt up4).
  { rewrite (initHandleResponse_response up3 b2 ((b3 ++ [x0a]) ++ rest) caps "caps");
      try assumption; try (apply Hstart; assumption).
    - change (String.eqb "caps" "sub") with false.
      change (String.eqb "caps" "conf") with false.
      change (String.eqb "caps" "caps") with true. cbv iota.
      rewrite (handleGetCapsResponse_run caps (b2 ++ [x0a])
                 (set_serverReader (Some ((b3 ++ [x0a]) ++ rest)) up3)
                 (wrote lines c) cfg eq_refl Hcfg).
      rewrite note_capabilities_flags. reflexivity.
    - cbn [serverReader up3 set_stat set_extraNonce2Size set_sessionID set_serverReader].
      rewrite <- !app_assoc. reflexivity. }
  (* the authorize response *)
  set (up5 := set_stat StatAuthorized (set_serverReader (Some rest) up4)).
  assert (Hturn3 : initHandleResponse up4 = Done tt up5).
  { rewrite (initHandleResponse_response up4 b3 rest auth "auth");
      try assumption; try (apply Hstart; assumption).
    - change (String.eqb "auth" "sub") with false.
      change (String.eqb "auth" "conf") with false.
      change (String.eqb "auth" "caps") with false.
      change (String.eqb "auth" "auth") with true. cbv iota.
      apply (handleAuthorizeResponse_true auth _ _ (wrote lines c)); [reflexivity|exact HR3].
    - cbn [serverReader up4 set_serverCapsSubRes set_serverCapsVerRol set_serverReader].
      rewrite <- !app_assoc. reflexivity. }
  exists up5. split.
  - unfold Init. erewrite bind_Done; [|exact Hconnect]. cbv beta iota.
    erewrite bind_Done; [|exact Hsend]. cbv beta iota.
    rewrite (initResponses_step up2 up3 eq_refl Hturn1).
    rewrite (initResponses_step up3 up4 eq_refl Hturn2).
    rewrite (initResponses_step up4 up5 eq_refl Hturn3).
    unfold initResponses. apply initLoop_stop. reflexivity.
  - repeat split.
Qed.

(** X20. A dial that fails.  With a pool to dial and a dial that fails,
    [Init] returns with the session disconnected and without a connection;
    nothing is written, nothing is read, and no response is awaited. *)
Theorem Init_dial_failure up cfg pool err :
  config up = Some cfg ->
  0 <= poolIndex up ->
  Pools cfg !! Z.to_nat (poolIndex up) = Some pool ->
  DialTimeout (Sprintf_host_port (Host pool) (Port pool)) = inr err ->
  Init up
  = Done tt (set_stat StatDisconnected (set_serverConn None (set_stat StatConnecting up))).
Proof.
  intros Hcfg Hidx Hpool Hdial.
  unfold Init.
  assert (Hconnect : connect up
    = Done (Some err)
        (set_stat StatDisconnected (set_serverConn None (set_stat StatConnecting up)))).
  { unfold connect. erewrite bind_Done; [|reflexivity].
    erewrite bind_Done; [|apply (config_pool_found _ cfg pool); assumption].
    cbv zeta. rewrite Hdial. reflexivity. }
  erewrite bind_Done; [|exact Hconnect]. cbv beta iota.
  unfold glog_IP, IP. erewrite bind_Done; [reflexivity|].
  erewrite bind_Done; [|reflexivity]. cbn [serverConn set_stat set_serverConn].
  erewrite bind_Done; [reflexivity|].
  apply (config_pool_found _ cfg pool); assumption.
Qed.

End Session.

(** ** The theorems at work on the sample environment *)

Local Notation sample_connect c := (connect (Sample.dial c)).
Local Notation sample_initHandleResponse :=
  (initHandleResponse Sample.magic Sample.decode Sample.unrepresentable).
Local Notation sample_initResponses :=
  (initResponses Sample.magic Sample.decode Sample.unrepresentable).
Local Notation sample_Init c :=
  (Init Sample.magic Sample.userAgent (Sample.dial c) Sample.encode Sample.decode
     Sample.unrepresentable).
Local Notation sample_run_op c :=
  (run_op Sample.magic Sample.userAgent (Sample.dial c) Sample.encode Sample.decode
     Sample.unrepresentable).

Lemma handleSubScribeResponse_valid_witness :
  handleSubScribeResponse Sample.unrepresentable Sample.sub8 [] (Sample.connected [])
  = Done tt (set_stat StatSubScribed
               (set_extraNonce2Size 8 (set_sessionID 439041101 (Sample.connected [])))).
Proof.
  refine (proj1 (proj2 (handleSubScribeResponse_valid Sample.unrepresentable Sample.sub8 []
            (Sample.connected []) [JArray []; JString "1a2b3c4d"; JNumber Sample.eight]
            "1a2b3c4d" 439041101 Sample.eight 8 _ _ _ _ _ _ _))).
  - reflexivity.
  - simpl. lia.
  - reflexivity.
  - vm_compute. reflexivity.
  - reflexivity.
  - reflexivity.
  - lia.
Defined.


Lemma handleSubScribeResponse_short_width_witness :
  exists up',
    handleSubScribeResponse Sample.unrepresentable Sample.sub4 [] (Sample.connected [])
    = Done tt up' /\
    stat up' = StatDisconnected /\
    stat up' <> StatSubScribed /\
    serverConn up' = Some (Conn_Close (Sample.conn [] [])) /\
    closed (Conn_Close (Sample.conn [] [])) = true.
Proof.
  refine (handleSubScribeResponse_short_width Sample.unrepresentable Sample.sub4 []
            (Sample.connected []) (Sample.conn [] [])
            [JArray []; JString "1a2b3c4d"; JNumber Sample.four]
            "1a2b3c4d" 439041101 Sample.four _ _ _ _ _ _).
  - reflexivity.
  - reflexivity.
  - reflexivity.
  - vm_compute. reflexivity.
  - reflexivity.
  - vm_compute. reflexivity.
Defined.

Lemma handleSubScribeResponse_not_atomic_witness :
  handleSubScribeResponse Sample.unrepresentable Sample.sub4 [] (Sample.connected [])
  = close (set_extraNonce2Size (int_of_float64 Sample.unrepresentable Sample.four)
             (set_sessionID 439041101 (Sample.connected []))).
Proof.
  refine (proj1 (handleSubScribeResponse_not_atomic Sample.unrepresentable Sample.sub4 []
            (Sample.connected []) (Sample.conn [] [])
            [JArray []; JString "1a2b3c4d"; JNumber Sample.four]
            "1a2b3c4d" 439041101 Sample.four _ _ _ _ _ _)).
  - reflexivity.
  - reflexivity.
  - reflexivity.
  - vm_compute. reflexivity.
  - reflexivity.
  - vm_compute. reflexivity.
Defined.



Lemma eventChannel_stays_nil_witness :
  let up := run_ops Sample.magic Sample.userAgent (Sample.dial (Sample.conn [] []))
              Sample.encode Sample.decode Sample.unrepresentable [OpInit; OpClose]
              (NewUpSession 1%positive (Some Sample.cfg) "alice" 0) in
  SendEvent EventUnknown up = Blocked up.
Proof.
  intros up.
  pose proof (eventChannel_stays_nil Sample.magic Sample.userAgent
                (Sample.dial (Sample.conn [] [])) Sample.encode Sample.decode
                Sample.unrepresentable 1%positive (Some Sample.cfg) "alice" 0
                [OpInit; OpClose] EventUnknown None) as H.
  cbv zeta in H.
  destruct H as (_ & _ & _ & _ & _ & _ & _ & _ & H & _).
  exact H.
Defined.

Lemma Disconnected_kept_witness :
  stat (sample_run_op (Sample.conn [] []) OpClose Sample.fresh) = StatDisconnected.
Proof.
  refine (proj1 (Disconnected_kept Sample.magic Sample.userAgent
                   (Sample.dial (Sample.conn [] [])) Sample.encode Sample.decode
                   Sample.unrepresentable OpClose Sample.fresh _) _); reflexivity.
Defined.

(** C6, as the claim has it, fails: a new session is disconnected and
    [connect] takes it to [StatConnected] when the dial succeeds. *)
Lemma connect_leaves_Disconnected :
  ~ Disconnected_is_never_left Sample.magic Sample.userAgent
      (Sample.dial (Sample.conn [] [])) Sample.encode Sample.decode Sample.unrepresentable.
Proof.
  intros H. specialize (H OpConnect Sample.fresh eq_refl).
  vm_compute in H. discriminate H.
Qed.

Example connect_fresh :
  stat Sample.fresh = StatDisconnected /\
  stat (session_of (sample_connect (Sample.conn [] []) Sample.fresh)) = StatConnected.
Proof. split; reflexivity. Qed.

(** C4. The frame 7F 01 04 00 declares the length 4.  [ReadBytes(4)]
    reads up to the first byte 4, which here is the low length byte, so
    three bytes are consumed and not four; the slice [header[2:]] is one
    byte long and [Uint16] panics on it.  The byte after the frame is never
    reached. *)
Lemma initHandleResponse_length4_frame :
  let frame := [x7f; x01; x04; x00] in
  let rest := Sample.line "{id:auth,result:true}" in
  let up := Sample.connected (frame ++ rest) in
  sample_initHandleResponse up = Panic (set_serverReader (Some (x00 :: rest)) up) /\
  sample_initHandleResponse up <> Done tt (set_serverReader (Some rest) up).
Proof. split; [vm_compute; reflexivity | vm_compute; discriminate]. Qed.

(** The same defect on a longer frame, 7F 01 08 00 and four body bytes:
    no byte 4 follows, the read runs to the end of the stream through the
    line behind the frame, fails, and the session is closed. *)
Example initHandleResponse_length8_frame :
  let frame := [x7f; x01; x08; x00; x41; x42; x43; x44] in
  let rest := Sample.line "{id:auth,result:true}" in
  let up := Sample.connected (frame ++ rest) in
  serverReader (session_of (sample_initHandleResponse up)) = Some [] /\
  stat (session_of (sample_initHandleResponse up)) = StatDisconnected.
Proof. split; vm_compute; reflexivity. Qed.

(** C5. Every one of the four writes fails, and the handshake goes on
    all the same: [initSendRequest] returns nil, [Init] does not close the
    connection and enters the response loop, which reads the authorize
    response and leaves the session authorized with nothing written. *)
Lemma Init_after_failed_sends :
  let broken := Some (ErrNet "broken pipe") in
  let c := Sample.conn (Sample.line "{id:auth,result:true}")
             [broken; broken; broken; broken] in
  let connected := session_of (sample_connect c Sample.fresh) in
  let o := sample_Init c Sample.fresh in
  is_Done (initSendRequest Sample.userAgent Sample.encode connected) = true /\
  session_of (initSendRequest Sample.userAgent Sample.encode connected)
  = set_serverConn (Some (Sample.conn (Sample.line "{id:auth,result:true}") [])) connected /\
  is_Done o = true /\
  stat (session_of o) = StatAuthorized /\
  serverReader (session_of o) = Some [] /\
  (written <$> serverConn (session_of o)) = Some [] /\
  (closed <$> serverConn (session_of o)) = Some false.
Proof. repeat split; vm_compute; reflexivity. Qed.

(** ** The further properties at work on the sample environment *)

Lemma initSendRequest_writes_four_witness :
  initSendRequest Sample.userAgent Sample.encode (Sample.connected [])
  = Done None
      (set_serverConn
         (Some (wrote [fst (Sample.encode (subscribeRequest Sample.userAgent));
                       fst (Sample.encode configureRequest);
                       fst (Sample.encode capabilitiesRequest);
                       fst (Sample.encode (authorizeRequest "alice"))]
                  (Sample.conn [] []))) (Sample.connected [])).
Proof.
  refine (initSendRequest_writes_four Sample.userAgent Sample.encode (Sample.connected [])
            (Sample.conn [] []) _ _ _ _).
  - reflexivity.
  - reflexivity.
  - split; reflexivity.
  - intros request. reflexivity.
Defined.

Lemma initSendRequest_unusable_witness :
  initSendRequest Sample.userAgent Sample.encode Sample.fresh = Done None Sample.fresh.
Proof.
  refine (proj1 (initSendRequest_unusable Sample.userAgent Sample.encode Sample.fresh _)).
  reflexivity.
Defined.

Lemma IP_after_connect_witness :
  (connect Sample.dial_refused ;;; IP) Sample.fresh
  = Done (Sprintf_host_port "pool.example.org" 3333)
      (session_of (connect Sample.dial_refused Sample.fresh)).
Proof.
  refine (IP_after_connect Sample.dial_refused Sample.fresh Sample.cfg Sample.pool _ _ _).
  - reflexivity.
  - simpl. lia.
  - reflexivity.
Defined.

Lemma handleSetVersionMask_outcome_witness :
  handleSetVersionMask Sample.set_version_mask [] (Sample.connected [])
  = Done tt match version_mask_of (Params Sample.set_version_mask) with
            | Some mask => set_versionMask mask (Sample.connected [])
            | None => Sample.connected []
            end.
Proof.
  refine (handleSetVersionMask_outcome Sample.set_version_mask [] (Sample.connected [])
            (Sample.conn [] []) _).
  reflexivity.
Defined.




Lemma initReadLine_ignored_witness :
  initReadLine (Sample.decode_as Sample.notify) Sample.unrepresentable
    (Sample.connected (Sample.line "push"))
  = Done tt (set_serverReader (Some []) (Sample.connected (Sample.line "push"))).
Proof.
  refine (initReadLine_ignored (Sample.decode_as Sample.notify) Sample.unrepresentable
            (Sample.connected (Sample.line "push")) (String.list_byte_of_string "push") []
            Sample.notify _ _ _ _); reflexivity.
Defined.

Lemma initResponses_terminates_witness :
  initLoop Sample.magic Sample.decode Sample.unrepresentable 200
    (Sample.connected Sample.handshake_stream)
  = initResponses Sample.magic Sample.decode Sample.unrepresentable
      (Sample.connected Sample.handshake_stream).
Proof.
  refine (proj1 (proj2 (initResponses_terminates Sample.magic Sample.decode
                          Sample.unrepresentable
                          (Sample.connected Sample.handshake_stream))) 200%nat _).
  vm_compute. lia.
Defined.

Lemma initResponses_authorize_first_witness :
  let up := Sample.connected (Sample.line "{id:auth,result:true}" ++ Sample.line "more") in
  initResponses Sample.magic Sample.decode Sample.unrepresentable up
  = Done tt (set_stat StatAuthorized (set_serverReader (Some (Sample.line "more")) up)).
Proof.
  intros up.
  refine (initResponses_authorize_first Sample.magic Sample.decode Sample.unrepresentable
            up (Sample.conn (Sample.line "{id:auth,result:true}" ++ Sample.line "more") [])
            (String.list_byte_of_string "{id:auth,result:true}") (Sample.line "more")
            Sample.auth_true _ _ _ _ _ _ _ _ _); reflexivity.
Defined.

Lemma initHandleResponse_authorized_only_by_auth_witness :
  let up := Sample.connected (Sample.line "{id:auth,result:true}") in
  exists body rest rpcData,
    serverReader up = Some (body ++ x0a :: rest) /\
    has_byte x0a body = false /\
    Sample.decode (body ++ [x0a]) = inl rpcData /\
    Method rpcData = "" /\
    ID rpcData = JString "auth" /\
    Result rpcData = JBool true /\
    serverReader (set_stat StatAuthorized (set_serverReader (Some []) up)) = Some rest.
Proof.
  intros up.
  refine (initHandleResponse_authorized_only_by_auth Sample.magic Sample.decode
            Sample.unrepresentable up
            (set_stat StatAuthorized (set_serverReader (Some []) up)) _ _ _).
  - vm_compute. reflexivity.
  - vm_compute. discriminate.
  - reflexivity.
Defined.

Lemma addStratumSession_map_witness :
  size (<[7 := Sample.miner1]> (stratumSessions Sample.fresh))
  = S (size (stratumSessions Sample.fresh)).
Proof.
  refine (proj1 (proj2 (proj2 (proj2
            (addStratumSession_map Sample.fresh Sample.miner1)))) _).
  reflexivity.
Defined.

Lemma addStratumSession_twice_witness :
  exists up',
    (addStratumSession (Some Sample.miner1) ;;; addStratumSession (Some Sample.miner2))
      Sample.fresh = Done tt up' /\
    stratumSessions up' !! 7 = Some Sample.miner1 /\
    stratumSessions up' !! 9 = Some Sample.miner2 /\
    size (stratumSessions up') = 2%nat.
Proof.
  destruct (addStratumSession_twice Sample.fresh Sample.miner1 Sample.miner2)
    as (up' & Hrun & H2 & Hne & _).
  destruct (Hne ltac:(simpl; lia)) as [H1 Hsize].
  exists up'. split; [exact Hrun|]. split; [exact H1|]. split; [exact H2|].
  apply (Hsize eq_refl eq_refl).
Defined.

Lemma handleEvent_drains_witness :
  let events := [EventAddStratumSession (Some Sample.miner1); EventUnknown;
                 EventAddStratumSession (Some Sample.miner2)] in
  exists up',
    Run (Sample.with_events events) = Blocked up' /\
    stratumSessions up' = attach_all events (stratumSessions (Sample.with_events events)) /\
    stat up' = stat (Sample.with_events events) /\
    (chanBuf <$> eventChannel up') = Some [].
Proof.
  intros events.
  refine (proj2 (proj2 (handleEvent_drains (Sample.with_events events)))
            {| chanCap := 8; chanBuf := events |} _ _); reflexivity.
Defined.

Lemma initReadExMessage_frame_witness :
  let stream := [x7f; x01; x05; x00; x41; x04; x42; x43] in
  initReadExMessage (Sample.connected stream)
  = Done tt (set_serverReader (Some (drop (Z.to_nat (5 - 4)) [x42; x43]))
               (Sample.connected stream)).
Proof.
  intros stream.
  refine (initReadExMessage_frame (Sample.connected stream) [x7f; x01; x05; x00; x41]
            [x42; x43] 5 _ _ _ _ _).
  - reflexivity.
  - reflexivity.
  - reflexivity.
  - lia.
  - simpl. lia.
Defined.

Lemma Init_handshake_witness :
  exists up',
    Init Sample.magic Sample.userAgent (Sample.dial (Sample.conn Sample.handshake_stream []))
      Sample.encode Sample.decode Sample.unrepresentable Sample.fresh = Done tt up' /\
    stat up' = StatAuthorized /\
    sessionID up' = 439041101 /\
    extraNonce2Size up' = 8.
Proof.
  destruct (Init_handshake Sample.magic Sample.userAgent
              (Sample.dial (Sample.conn Sample.handshake_stream []))
              Sample.encode Sample.decode Sample.unrepresentable
              Sample.fresh Sample.cfg Sample.pool (Sample.conn Sample.handshake_stream [])
              Sample.sub8 Sample.caps_both Sample.auth_true
              (String.list_byte_of_string "{id:sub,result:[[],1a2b3c4d,8]}")
              (String.list_byte_of_string "{id:caps,result:{capabilities:[verrol,subres]}}")
              (String.list_byte_of_string "{id:auth,result:true}")
              (Sample.line "{id:1,method:mining.notify}") 439041101 8)
    as (up' & Hrun & Hstat & Hsid & Hwidth & _).
  - reflexivity.
  - simpl. lia.
  - reflexivity.
  - reflexivity.
  - split; reflexivity.
  - intros request. reflexivity.
  - vm_compute. reflexivity.
  - repeat split; try (vm_compute; reflexivity). lia.
  - repeat split; vm_compute; reflexivity.
  - repeat split; vm_compute; reflexivity.
  - exists up'. repeat split; assumption.
Defined.

Lemma Init_dial_failure_witness :
  Init Sample.magic Sample.userAgent Sample.dial_refused Sample.encode Sample.decode
    Sample.unrepresentable Sample.fresh
  = Done tt (set_stat StatDisconnected
               (set_serverConn None (set_stat StatConnecting Sample.fresh))).
Proof.
  refine (Init_dial_failure Sample.magic Sample.userAgent Sample.dial_refused Sample.encode
            Sample.decode Sample.unrepresentable Sample.fresh Sample.cfg Sample.pool
            (ErrNet "connection refused") _ _ _ _).
  - reflexivity.
  - simpl. lia.
  - reflexivity.
  - reflexivity.
Defined.
